(** * nanobot: the multi-model provider with fallback

    A shallow embedding of [nanobot/providers/multi_model_provider.py]:
    the candidate ordering of [MultiModelProvider.chat], its fallback loop
    with the classification of every backend outcome, the aggregated error
    report, the lazily filled provider cache of [_get_provider_for_model]
    and the accessors [get_default_model] and [get_models]; and of the text
    checks of [verify_integration.py].

    A Python [str] is a [string], one [ascii] per character; [None] is the
    [None] of [option]; the dict [_providers] is a [gmap] from model
    identifiers to clients; Python [list] objects that can be shared between
    the provider and its callers live in a store indexed by locations. *)

From Stdlib Require Import Ascii.
From Stdlib Require String.
From stdpp Require Import base option list gmap strings fin_maps.

(** ** Python string primitives *)

Module Py.

(** [s.startswith(p)] *)
Fixpoint startswith (s p : string) {struct p} : bool :=
  match p with
  | EmptyString => true
  | String c p' =>
      match s with
      | EmptyString => false
      | String d s' => if Ascii.eqb c d then startswith s' p' else false
      end
  end.

(** [len(s)] *)
Definition len (s : string) : nat := String.length s.

(** [s[:n]] *)
Fixpoint slice_to (n : nat) (s : string) : string :=
  match n with
  | O => EmptyString
  | S n' =>
      match s with
      | EmptyString => EmptyString
      | String c s' => String c (slice_to n' s')
      end
  end.

(** [sep.join(parts)] *)
Fixpoint join (sep : string) (parts : list string) : string :=
  match parts with
  | [] => EmptyString
  | [x] => x
  | x :: rest => x +:+ sep +:+ join sep rest
  end.

(** Truthiness of a [str]: only the empty string is falsy. *)
Definition truthy (s : string) : bool :=
  match s with
  | EmptyString => false
  | String _ _ => true
  end.

(** Truthiness of a [str | None]. *)
Definition truthy_opt (o : option string) : bool :=
  match o with
  | None => false
  | Some s => truthy s
  end.

(** [o or d] for [o : str | None] and a string [d]. *)
Definition or_str (o : option string) (d : string) : string :=
  match o with
  | Some s => if truthy s then s else d
  | None => d
  end.

End Py.

(** ** The order of models to try

    Lines 96-104 of [chat]: a truthy [model] goes first, followed by every
    configured model different from it; otherwise the configured list itself
    is used. *)

Fixpoint append_others (model : string) (models : list string)
    (models_to_try : list string) : list string :=
  match models with
  | [] => models_to_try
  | m :: rest =>
      if decide (m ≠ model)
      then append_others model rest (models_to_try ++ [m])
      else append_others model rest models_to_try
  end.

Definition models_to_try (self_models : list string) (model : option string)
    : list string :=
  match model with
  | Some m =>
      if Py.truthy m then append_others m self_models [m] else self_models
  | None => self_models
  end.

(** ** Responses and backend outcomes *)

(** Modelled from the spec: [LLMResponse] of [nanobot.providers.base] is not
    part of the sources at hand.  It carries an optional textual content, a
    finish-reason tag and backend metadata (tool calls, token usage) that
    the dispatcher never inspects; a response built with only [content] and
    [finish_reason] has empty metadata. *)
Record LLMResponse := mkLLMResponse {
  content : option string;
  finish_reason : string;
  tool_calls : list string;
  usage : list (string * nat);
}.

(** What [await provider.chat(...)] does inside the [try]: it returns a
    response, or raises an [Exception] [e], of which only [str(e)] is used. *)
Inductive outcome :=
| Returned (response : LLMResponse)
| Raised (str_e : string).

(** ** Configuration *)

(** Modelled from the spec: [Config] and its provider entries
    ([nanobot.config.schema]) are not part of the sources at hand.  The
    lookups are pure and never raise; absent data is [None]. *)
Record ProviderConfig := mkProviderConfig {
  api_key : option string;
  api_base : option string;
  extra_headers : option (list (string * string));
}.

Record Config := mkConfig {
  get_provider : string -> option ProviderConfig;
  get_provider_name : string -> option string;
  get_api_base : string -> option string;
}.

(** ** Backend clients *)

(** The three client classes, with the keyword arguments each constructor
    receives in [_get_provider_for_model]. *)
Inductive ProviderImpl :=
| OpenAICodexProvider (default_model : string)
| CustomProvider (api_key : option string) (api_base : string)
    (default_model : string)
| LiteLLMProvider (api_key : option string) (api_base : option string)
    (default_model : string)
    (extra_headers : option (list (string * string)))
    (provider_name : option string).

(** A client object: its identity and what it was constructed as. *)
Record LLMProvider := mkLLMProvider {
  obj_id : nat;
  impl : ProviderImpl;
}.

(** The body of the [if model not in self._providers] branch: which client
    is constructed for [model].  ([find_by_name] is also called there when
    the provider name is truthy, but its result is never used.) *)
Definition new_provider (config : Config) (model : string) : ProviderImpl :=
  let provider_config := get_provider config model in
  let provider_name := get_provider_name config model in
  if bool_decide (provider_name = Some "openai_codex")
     || Py.startswith model "openai-codex/"
  then OpenAICodexProvider model
  else if bool_decide (provider_name = Some "custom")
  then CustomProvider
         (match provider_config with
          | Some pc => api_key pc
          | None => Some "no-key"
          end)
         (Py.or_str (get_api_base config model) "http://localhost:8000/v1")
         model
  else LiteLLMProvider
         (match provider_config with Some pc => api_key pc | None => None end)
         (match provider_config with Some pc => api_base pc | None => None end)
         model
         (match provider_config with
          | Some pc => extra_headers pc
          | None => None
          end)
         provider_name.

(** ** Log events *)

(** The calls made on [logger], in the order they are made. *)
Inductive LogEvent :=
| Debug_trying (position : nat) (model_name : string)
| Warning_failed (model_name error_msg : string)
| Warning_exception (model_name str_e : string)
| Info_fallback (first model_name : string)
| Error_all_failed (error_summary : string).

(** ** The dispatcher *)

Section Dispatcher.

(** Whatever the backends depend on and change when called (network,
    remote quotas, the clients' own state). *)
Variable World : Type.

(** The arguments [chat] hands on unchanged: [messages], [tools],
    [max_tokens] and [temperature]. *)
Variable Request : Type.

(** [await provider.chat(request, model=model_name)]. *)
Variable provider_chat :
  LLMProvider -> Request -> string -> World -> outcome * World.

(** The mutable state a call of [chat] works on: the dict
    [self._providers], the next free object identity, the world behind
    the backends, and the log written so far (oldest event first). *)
Record State := mkState {
  _providers : gmap string LLMProvider;
  next_obj : nat;
  world : World;
  log : list LogEvent;
}.

Definition set_world (w : World) (st : State) : State :=
  mkState (_providers st) (next_obj st) w (log st).

Definition logger (ev : LogEvent) (st : State) : State :=
  mkState (_providers st) (next_obj st) (world st) (log st ++ [ev]).

(** [self._get_provider_for_model(model)], with [self.config] passed in. *)
Definition _get_provider_for_model (config : Config) (model : string)
    (st : State) : LLMProvider * State :=
  match _providers st !! model with
  | Some provider => (provider, st)
  | None =>
      let provider := mkLLMProvider (next_obj st) (new_provider config model) in
      (provider,
       mkState (<[model := provider]> (_providers st)) (S (next_obj st))
               (world st) (log st))
  end.

(** The test of lines 123-125 on a returned response. *)
Definition indicates_error (response : LLMResponse) : bool :=
  bool_decide (finish_reason response = "error")
  || (Py.truthy_opt (content response)
      && match content response with
         | Some c => Py.startswith c "Error calling LLM:"
         | None => false
         end).

(** One iteration of the [for] loop (lines 110-142) for the candidate at
    position [idx]: [inl response] when the iteration returns from [chat],
    [inr record] when it appends [record] to [errors] and continues.
    Resolving the client and logging raise nothing, so the [except] branch
    is entered only by what the backend call raises; [last_error] is
    assigned in both failure branches and never read, and is left out.
    [models_to_try[0]] is read only at [idx > 0], where the list is not
    empty. *)
Definition try_model (config : Config) (request : Request)
    (models_to_try : list string) (idx : nat) (model_name : string)
    (st : State) : (LLMResponse + string * string) * State :=
  let '(provider, st) := _get_provider_for_model config model_name st in
  let st := logger (Debug_trying (idx + 1) model_name) st in
  match provider_chat provider request model_name (world st) with
  | (Returned response, w) =>
      let st := set_world w st in
      if indicates_error response then
        let error_msg := Py.or_str (content response) "Unknown error" in
        let st := logger (Warning_failed model_name error_msg) st in
        (inr (model_name, error_msg), st)
      else
        let st :=
          if bool_decide (1 < length models_to_try) && bool_decide (0 < idx)
          then logger (Info_fallback (default "" (head models_to_try))
                                     model_name) st
          else st in
        (inl response, st)
  | (Raised str_e, w) =>
      let st := set_world w st in
      let st := logger (Warning_exception model_name str_e) st in
      (inr (model_name, str_e), st)
  end.

(** The [for] loop over [enumerate(models_to_try)], from position [idx]
    on: [Some response] when an iteration returned, [None] when the loop
    ran to its end; in both cases with the list [errors] as it then is. *)
Fixpoint chat_loop (config : Config) (request : Request)
    (models_to_try : list string) (idx : nat) (remaining : list string)
    (errors : list (string * string)) (st : State)
    : option LLMResponse * list (string * string) * State :=
  match remaining with
  | [] => (None, errors, st)
  | model_name :: remaining' =>
      match try_model config request models_to_try idx model_name st with
      | (inl response, st') => (Some response, errors, st')
      | (inr record, st') =>
          chat_loop config request models_to_try (S idx) remaining'
                    (errors ++ [record]) st'
      end
  end.

(** One entry of the summary of line 145. *)
Definition error_entry (record : string * string) : string :=
  let '(m, e) := record in
  if bool_decide (50 < Py.len e)
  then m +:+ ": " +:+ Py.slice_to 50 e +:+ "..."
  else m +:+ ": " +:+ e.

Definition error_summary (errors : list (string * string)) : string :=
  Py.join "; " (error_entry <$> errors).

(** [chat] on the current contents [self_models] of [self.models]. *)
Definition chat_with (config : Config) (self_models : list string)
    (request : Request) (model : option string) (st : State)
    : LLMResponse * State :=
  let models_to_try := models_to_try self_models model in
  match chat_loop config request models_to_try 0 models_to_try [] st with
  | (Some response, _, st') => (response, st')
  | (None, errors, st') =>
      let error_summary := error_summary errors in
      let st' := logger (Error_all_failed error_summary) st' in
      (mkLLMResponse (Some ("Error: All models failed. " +:+ error_summary))
                     "error" [] [],
       st')
  end.

(** The records a run of the loop appended, for the claims that speak of
    them: [errors] is local to [chat] and is not returned. *)
Definition chat_errors (config : Config) (self_models : list string)
    (request : Request) (model : option string) (st : State)
    : list (string * string) :=
  let models_to_try := models_to_try self_models model in
  (chat_loop config request models_to_try 0 models_to_try [] st).1.2.

(** ** The provider object and the store of lists *)

(** Python lists of model identifiers, by location. *)
Definition deref (h : gmap nat (list string)) (l : nat) : list string :=
  default [] (h !! l).

Definition alloc (v : list string) (h : gmap nat (list string))
    : nat * gmap nat (list string) :=
  let l := fresh (dom h) in (l, <[l := v]> h).

(** The fields set by [__init__] that are never rebound afterwards;
    [models] is a reference to a list object. *)
Record MultiModelProvider := mkMultiModelProvider {
  config : Config;
  models : nat;
  default_model : string;
}.

(** [MultiModelProvider(config, models, default_model)]:
    [models or [default_model]] keeps the caller's list object when it is
    non-empty and makes a new one-element list otherwise. *)
Definition __init__ (config : Config) (models : option nat)
    (default_model : string) (h : gmap nat (list string))
    : MultiModelProvider * gmap nat (list string) :=
  match models with
  | Some l =>
      match deref h l with
      | [] =>
          let '(l', h') := alloc [default_model] h in
          (mkMultiModelProvider config l' default_model, h')
      | _ :: _ => (mkMultiModelProvider config l default_model, h)
      end
  | None =>
      let '(l', h') := alloc [default_model] h in
      (mkMultiModelProvider config l' default_model, h')
  end.

(** A provider whose cache is the empty dict of [__init__]. *)
Definition initial_state (w : World) : State := mkState ∅ 0 w [].

Definition chat (self : MultiModelProvider) (h : gmap nat (list string))
    (request : Request) (model : option string) (st : State)
    : LLMResponse * State :=
  chat_with (config self) (deref h (models self)) request model st.

Definition get_default_model (self : MultiModelProvider)
    (h : gmap nat (list string)) : string :=
  match deref h (models self) with
  | m :: _ => m
  | [] => default_model self
  end.

(** [self.models.copy()]: a new list object with the same elements. *)
Definition get_models (self : MultiModelProvider)
    (h : gmap nat (list string)) : nat * gmap nat (list string) :=
  alloc (deref h (models self)) h.

End Dispatcher.

Arguments State : clear implicits.
Arguments mkState {World}.
Arguments _providers {World}.
Arguments next_obj {World}.
Arguments world {World}.
Arguments log {World}.
Arguments set_world {World}.
Arguments logger {World}.
Arguments _get_provider_for_model {World}.
Arguments try_model {World Request}.
Arguments chat_loop {World Request}.
Arguments chat_with {World Request}.
Arguments chat_errors {World Request}.
Arguments chat {World Request}.
Arguments initial_state {World}.

(** ** Notions the properties are stated with *)

(** Resolving a series of models one after the other, each under the
    configuration in force at that moment; only the state is kept. *)
Definition resolve_all {World : Type} (calls : list (Config * string))
    (st : State World) : State World :=
  foldl (λ st call, (_get_provider_for_model call.1 call.2 st).2) st calls.

(** The selection rule in the words of the specification: a closed variant
    picked by a pure classification of provider name and identifier, the
    OAuth-style name or identifier prefix first, then the custom
    direct-endpoint name, the gateway client otherwise. *)
Inductive ClientKind := OAuthClient | DirectEndpointClient | GatewayClient.

Definition select_client (provider_name : option string) (model : string)
    : ClientKind :=
  if decide (provider_name = Some "openai_codex"
             ∨ Py.startswith model "openai-codex/" = true)
  then OAuthClient
  else if decide (provider_name = Some "custom") then DirectEndpointClient
  else GatewayClient.

Definition kind_of (p : ProviderImpl) : ClientKind :=
  match p with
  | OpenAICodexProvider _ => OAuthClient
  | CustomProvider _ _ _ => DirectEndpointClient
  | LiteLLMProvider _ _ _ _ _ => GatewayClient
  end.

(** Every entry of a cache filled under one configuration is what that
    configuration makes of its key. *)
Definition cache_of {World : Type} (cfg : Config) (st : State World) : Prop :=
  ∀ k p, _providers st !! k = Some p → impl p = new_provider cfg k.

(** The model every client kind is bound to as its default. *)
Definition bound_model (p : ProviderImpl) : string :=
  match p with
  | OpenAICodexProvider m => m
  | CustomProvider _ _ m => m
  | LiteLLMProvider _ _ m _ _ => m
  end.

(** The models a log shows as tried, in the order of the attempts. *)
Fixpoint tried (evs : list LogEvent) : list string :=
  match evs with
  | [] => []
  | Debug_trying _ model_name :: evs' => model_name :: tried evs'
  | _ :: evs' => tried evs'
  end.

(** [s] contains the strings [parts] one after the other, in this order. *)
Fixpoint contains_in_order (parts : list string) (s : string) : Prop :=
  match parts with
  | [] => True
  | x :: parts' => ∃ a b, s = a +:+ x +:+ b ∧ contains_in_order parts' b
  end.

(** ** The outcomes of a run, in the words of the specification *)

(** What the backend does when [model_name] is tried in state [st]: the
    call is made on the client resolved for it, in the world of [st]. *)
Definition backend_call {World Request : Type}
    (provider_chat : LLMProvider → Request → string → World → outcome * World)
    (config : Config) (request : Request) (model_name : string)
    (st : State World) : outcome * World :=
  provider_chat (_get_provider_for_model config model_name st).1 request
                model_name (world st).

(** Hard failure: the call raises. *)
Definition hard_failure (o : outcome) : Prop := ∃ str_e, o = Raised str_e.

(** Soft failure: the call returns a response whose finish-reason is the
    "error" tag or whose content begins with "Error calling LLM:". *)
Definition soft_failure (o : outcome) : Prop :=
  ∃ response, o = Returned response
    ∧ (finish_reason response = "error"
       ∨ ∃ rest, content response = Some ("Error calling LLM:" +:+ rest)).

(** The message of the Failure Record of a failed call. *)
Definition failure_message (o : outcome) : string :=
  match o with
  | Raised str_e => str_e
  | Returned response =>
      match content response with
      | Some "" | None => "Unknown error"
      | Some c => c
      end
  end.

Section Runs.

Context {World Request : Type}.
Variable provider_chat :
  LLMProvider → Request → string → World → outcome * World.
Variables (config : Config) (request : Request).
Variable models_to_try : list string.

(** The state after the candidates [ms] were tried one after the other,
    the first of them at position [idx]. *)
Fixpoint state_after (idx : nat) (ms : list string) (st : State World)
    : State World :=
  match ms with
  | [] => st
  | m :: ms' =>
      state_after (S idx) ms'
        (try_model provider_chat config request models_to_try idx m st).2
  end.

(** Every candidate of [ms], tried in turn, fails hard or soft. *)
Fixpoint all_fail (idx : nat) (ms : list string) (st : State World) : Prop :=
  match ms with
  | [] => True
  | m :: ms' =>
      let o := (backend_call provider_chat config request m st).1 in
      (hard_failure o ∨ soft_failure o)
      ∧ all_fail (S idx) ms'
          (try_model provider_chat config request models_to_try idx m st).2
  end.

(** One Failure Record per candidate of [ms], in try order. *)
Fixpoint failure_records (idx : nat) (ms : list string) (st : State World)
    : list (string * string) :=
  match ms with
  | [] => []
  | m :: ms' =>
      (m, failure_message (backend_call provider_chat config request m st).1)
      :: failure_records (S idx) ms'
           (try_model provider_chat config request models_to_try idx m st).2
  end.

End Runs.

(** ** A scripted backend and two configurations, for examples *)

(** The world counts the calls made.  "b/y" raises, "a/x" answers, "d/z"
    answers with an error text, "c/long" raises with a message of 60
    characters, every other model returns the "error" tag without content. *)
Definition scripted_chat (provider : LLMProvider) (request : unit)
    (model : string) (calls : nat) : outcome * nat :=
  if decide (model = "b/y") then (Raised "transport error", S calls)
  else if decide (model = "a/x")
  then (Returned (mkLLMResponse (Some "hi") "stop" [] []), S calls)
  else if decide (model = "d/z")
  then (Returned (mkLLMResponse (Some "Error calling LLM: timeout") "stop"
                                [] []), S calls)
  else if decide (model = "c/long")
  then (Raised "connection refused by the upstream gateway after 3 attempts.",
        S calls)
  else (Returned (mkLLMResponse None "error" [] []), S calls).

(** A configuration that knows nothing. *)
Definition no_config : Config := mkConfig (λ _, None) (λ _, None) (λ _, None).

(** A configuration that only names the provider of "local/m": "custom". *)
Definition custom_config : Config :=
  mkConfig (λ _, None)
           (λ model, if decide (model = "local/m") then Some "custom" else None)
           (λ _, None).

(** The failures a log shows as warnings, as (model, message) pairs in the
    order they were logged. *)
Fixpoint warned (evs : list LogEvent) : list (string * string) :=
  match evs with
  | [] => []
  | Warning_failed model_name error_msg :: evs' =>
      (model_name, error_msg) :: warned evs'
  | Warning_exception model_name str_e :: evs' =>
      (model_name, str_e) :: warned evs'
  | _ :: evs' => warned evs'
  end.

(** A cache that was only ever filled by resolution: every client is bound
    to its key, was given an identity below the next free one, no two keys
    share a client object, and as many clients were constructed as there
    are keys. *)
Definition cache_wf {World : Type} (st : State World) : Prop :=
  (∀ k p, _providers st !! k = Some p →
          bound_model (impl p) = k ∧ obj_id p < next_obj st)
  ∧ (∀ k1 k2 p1 p2,
       _providers st !! k1 = Some p1 → _providers st !! k2 = Some p2 →
       obj_id p1 = obj_id p2 → k1 = k2)
  ∧ size (_providers st) = next_obj st.

(** ** The integration checks of [verify_integration.py]

    The files the checks read are a map from paths to contents; a path
    without an entry does not exist. *)

Module PyText.

(** [s[n:]] for [0 <= n] *)
Fixpoint drop (n : nat) (s : string) : string :=
  match n with
  | O => s
  | S n' =>
      match s with
      | EmptyString => EmptyString
      | String _ s' => drop n' s'
      end
  end.

(** The position of the first occurrence of [sub] in a text of which [s]
    is the part from position [i] on. *)
Fixpoint find_from (sub s : string) (i : nat) : option nat :=
  if Py.startswith s sub then Some i
  else match s with
       | EmptyString => None
       | String _ s' => find_from sub s' (S i)
       end.

(** [sub in s] *)
Definition contains (sub s : string) : bool :=
  match find_from sub s 0 with
  | Some _ => true
  | None => false
  end.

(** What a slice or search bound [i] stands for in a text of length [len]:
    a negative bound counts from the end, and bounds are clipped. *)
Definition bound (len : nat) (i : Z) : nat :=
  if decide (i < 0)%Z then Z.to_nat (Z.max 0 (i + Z.of_nat len))
  else Z.to_nat (Z.min i (Z.of_nat len)).

(** [s.find(sub, start)] *)
Definition find (s sub : string) (start : Z) : Z :=
  if decide (Z.of_nat (String.length s) < start)%Z then (-1)%Z
  else
    let lo := bound (String.length s) start in
    match find_from sub (drop lo s) lo with
    | Some i => Z.of_nat i
    | None => (-1)%Z
    end.

(** [s[a:b]] *)
Definition slice (s : string) (a b : Z) : string :=
  let lo := bound (String.length s) a in
  let hi := bound (String.length s) b in
  Py.slice_to (hi - lo) (drop lo s).

(** The one-character string holding a double quote. *)
Definition dquote : string := String (Ascii.ascii_of_nat 34) EmptyString.

End PyText.

Definition check_class_in_file (fs : gmap string string)
    (filepath class_name : string) : bool :=
  match fs !! filepath with
  | None => false
  | Some content => PyText.contains ("class " +:+ class_name) content
  end.

Definition check_import_in_file (fs : gmap string string)
    (filepath import_name : string) : bool :=
  match fs !! filepath with
  | None => false
  | Some content => PyText.contains import_name content
  end.

Definition check_function_in_file (fs : gmap string string)
    (filepath function_name : string) : bool :=
  match fs !! filepath with
  | None => false
  | Some content => PyText.contains ("def " +:+ function_name) content
  end.

Definition check_export_in_file (fs : gmap string string)
    (filepath export_name : string) : bool :=
  match fs !! filepath with
  | None => false
  | Some content =>
      if PyText.contains "__all__" content then
        let start := PyText.find content "__all__" 0 in
        let end_ := PyText.find content "]" start in
        let all_content := PyText.slice content start (end_ + 1) in
        PyText.contains (PyText.dquote +:+ export_name +:+ PyText.dquote)
                        all_content
        || PyText.contains ("'" +:+ export_name +:+ "'") all_content
      else false
  end.

(** * Properties *)

(** ** Strings *)

Lemma append_cons (c : ascii) (a b : string) :
  String c a +:+ b = String c (a +:+ b).
Proof. reflexivity. Qed.

Lemma append_assoc (a b c : string) : (a +:+ b) +:+ c = a +:+ (b +:+ c).
Proof.
  induction a as [|x a IH]; [done |].
  rewrite !append_cons. by f_equal.
Qed.

Lemma startswith_append (p r : string) : Py.startswith (p +:+ r) p = true.
Proof.
  induction p as [|c p IH]; [done |].
  rewrite append_cons. simpl. by rewrite Ascii.eqb_refl.
Qed.

Lemma startswith_inv (s p : string) :
  Py.startswith s p = true → ∃ r, s = p +:+ r.
Proof.
  revert s. induction p as [|c p IH]; intros s H; simpl in *.
  - by exists s.
  - destruct s as [|d s]; [done |].
    destruct (Ascii.eqb c d) eqn:E; [| done].
    apply Ascii.eqb_eq in E as ->.
    destruct (IH _ H) as [r ->]. exists r. by rewrite append_cons.
Qed.

Lemma startswith_iff (s p : string) :
  Py.startswith s p = true ↔ ∃ r, s = p +:+ r.
Proof.
  split; [apply startswith_inv |].
  intros [r ->]. apply startswith_append.
Qed.

Lemma slice_to_all (n : nat) (s : string) :
  String.length s ≤ n → Py.slice_to n s = s.
Proof.
  revert s. induction n as [|n IH]; intros [|c s] H; simpl in *;
    try done; try lia.
  f_equal. apply IH. lia.
Qed.

Lemma slice_to_split (n : nat) (s : string) :
  n ≤ String.length s →
  String.length (Py.slice_to n s) = n ∧ ∃ r, s = Py.slice_to n s +:+ r.
Proof.
  revert s. induction n as [|n IH]; intros s H; simpl.
  - split; [done | by exists s].
  - destruct s as [|c s]; simpl in *; [lia |].
    destruct (IH s) as [Hl [r Hr]]; [lia |].
    split; [by rewrite Hl |]. exists r. rewrite append_cons. by f_equal.
Qed.

(** ** The order of models to try *)

Lemma append_others_filter (model : string) (ms acc : list string) :
  append_others model ms acc = acc ++ filter (λ m, m ≠ model) ms.
Proof.
  revert acc. induction ms as [|m ms IH]; intros acc; simpl.
  - by rewrite app_nil_r.
  - rewrite filter_cons. destruct (decide (m ≠ model)).
    + rewrite IH. by rewrite <- app_assoc.
    + apply IH.
Qed.

Lemma truthy_ne (s : string) : s ≠ "" → Py.truthy s = true.
Proof. by destruct s. Qed.

Lemma models_to_try_truthy (ms : list string) (r : string) :
  r ≠ "" → models_to_try ms (Some r) = r :: filter (λ m, m ≠ r) ms.
Proof.
  intros Hr. unfold models_to_try.
  rewrite (truthy_ne _ Hr). by rewrite append_others_filter.
Qed.

Lemma models_to_try_falsy (ms : list string) (model : option string) :
  Py.truthy_opt model = false → models_to_try ms model = ms.
Proof.
  destruct model as [m|]; simpl; [| done].
  by intros ->.
Qed.

Lemma requested_not_in_others (ms : list string) (r : string) :
  r ∉ filter (λ m, m ≠ r) ms.
Proof. intros [Hne _]%list_elem_of_filter. by apply Hne. Qed.

(** C1, as amended: for every configured list and every non-empty
    [requestedModel] present in it, the candidate list starts with
    [requestedModel], its remaining elements are the configured list with
    [requestedModel] removed, in their original order, [requestedModel]
    occurs in it exactly once, and the candidate list is free of duplicates
    whenever the configured list is (the dispatcher does not deduplicate). *)
Theorem models_to_try_requested_first (ms : list string) (r : string) :
  r ≠ "" → r ∈ ms →
  head (models_to_try ms (Some r)) = Some r
  ∧ tail (models_to_try ms (Some r)) = filter (λ m, m ≠ r) ms
  ∧ (r ∉ tail (models_to_try ms (Some r)))
  ∧ (NoDup ms → NoDup (models_to_try ms (Some r))).
Proof.
  intros Hr _. rewrite (models_to_try_truthy _ _ Hr). simpl.
  repeat split.
  - apply requested_not_in_others.
  - intros Hnd. apply NoDup_cons. split.
    + apply requested_not_in_others.
    + by apply NoDup_filter.
Qed.

Lemma models_to_try_requested_first_witness :
  ("b/y" ≠ "" ∧ "b/y" ∈ ["a/x"; "b/y"])
  ∧ head (models_to_try ["a/x"; "b/y"] (Some "b/y")) = Some "b/y"
  ∧ tail (models_to_try ["a/x"; "b/y"] (Some "b/y")) = ["a/x"].
Proof.
  assert (H1 : "b/y" ≠ "") by discriminate.
  assert (H2 : "b/y" ∈ ["a/x"; "b/y"]) by (apply list_elem_of_In; simpl; auto).
  split; [by split |].
  destruct (models_to_try_requested_first ["a/x"; "b/y"] "b/y" H1 H2)
    as (Hh & Ht & _).
  split; [exact Hh | exact Ht].
Defined.

(** C1 as stated fails: a configured list that repeats a model yields a
    candidate list that repeats it too. *)
Lemma models_to_try_keeps_duplicates :
  ["a/x"; "b/y"; "b/y"] ≠ []
  ∧ "a/x" ∈ ["a/x"; "b/y"; "b/y"]
  ∧ models_to_try ["a/x"; "b/y"; "b/y"] (Some "a/x") = ["a/x"; "b/y"; "b/y"]
  ∧ ¬ NoDup (models_to_try ["a/x"; "b/y"; "b/y"] (Some "a/x")).
Proof.
  split; [done |]. split; [apply list_elem_of_In; simpl; auto |].
  split; [reflexivity |].
  change (models_to_try ["a/x"; "b/y"; "b/y"] (Some "a/x"))
    with ["a/x"; "b/y"; "b/y"].
  intros Hnd. apply NoDup_cons in Hnd as [_ Hnd].
  apply NoDup_cons in Hnd as [Hin _].
  apply Hin. apply list_elem_of_In. simpl. auto.
Qed.

(** C6: when the provider is built without models ([None] or an empty
    list) and [chat] is given no model, the candidate list is
    [[default_model]], of exactly one element. *)
Theorem init_without_models_tries_default (cfg : Config)
    (configured : option nat) (d : string) (h : gmap nat (list string))
    (model : option string) :
  match configured with Some l => deref h l = [] | None => True end →
  Py.truthy_opt model = false →
  let '(self, h') := __init__ cfg configured d h in
  deref h' (models self) = [d]
  ∧ models_to_try (deref h' (models self)) model = [d]
  ∧ length (models_to_try (deref h' (models self)) model) = 1
  ∧ get_default_model self h' = d.
Proof.
  intros Hempty Hmodel.
  assert (Hinit : __init__ cfg configured d h =
            (mkMultiModelProvider cfg (fresh (dom h)) d,
             <[fresh (dom h) := [d]]> h)).
  { unfold __init__. destruct configured as [l|]; [| done].
    by rewrite Hempty. }
  rewrite Hinit.
  assert (Hd : deref (<[fresh (dom h) := [d]]> h) (fresh (dom h)) = [d]).
  { unfold deref. by rewrite lookup_insert_eq. }
  unfold get_default_model. simpl.
  rewrite (models_to_try_falsy _ _ Hmodel), Hd. done.
Qed.

Lemma init_without_models_tries_default_witness :
  (deref (∅ : gmap nat (list string)) 0 = [] ∧ Py.truthy_opt None = false)
  ∧ let '(self, h') :=
      __init__ (mkConfig (λ _, None) (λ _, None) (λ _, None)) (Some 0)
               "d/z" ∅ in
    models_to_try (deref h' (models self)) None = ["d/z"].
Proof.
  split; [by split |].
  pose proof (init_without_models_tries_default
                (mkConfig (λ _, None) (λ _, None) (λ _, None)) (Some 0)
                "d/z" ∅ None eq_refl eq_refl) as H.
  destruct (__init__ _ _ _ _) as [self h'].
  destruct H as (_ & H & _). exact H.
Defined.

(** ** The provider cache *)

Section Registry.

Context {World : Type}.
Implicit Types (st : State World) (cfg : Config) (m k : string).

Lemma get_provider_hit cfg m st p :
  _providers st !! m = Some p →
  _get_provider_for_model cfg m st = (p, st).
Proof. intros H. unfold _get_provider_for_model. by rewrite H. Qed.

Lemma get_provider_miss cfg m st :
  _providers st !! m = None →
  _get_provider_for_model cfg m st =
    (mkLLMProvider (next_obj st) (new_provider cfg m),
     mkState (<[m := mkLLMProvider (next_obj st) (new_provider cfg m)]>
                (_providers st))
             (S (next_obj st)) (world st) (log st)).
Proof. intros H. unfold _get_provider_for_model. by rewrite H. Qed.

Lemma get_provider_cached cfg m st :
  _providers (_get_provider_for_model cfg m st).2 !! m
  = Some (_get_provider_for_model cfg m st).1.
Proof.
  destruct (_providers st !! m) as [p|] eqn:E.
  - by rewrite (get_provider_hit _ _ _ _ E).
  - rewrite (get_provider_miss _ _ _ E). simpl. apply lookup_insert_eq.
Qed.

Lemma get_provider_preserves cfg m st k q :
  _providers st !! k = Some q →
  _providers (_get_provider_for_model cfg m st).2 !! k = Some q.
Proof.
  intros Hk. destruct (_providers st !! m) as [p|] eqn:E.
  - by rewrite (get_provider_hit _ _ _ _ E).
  - rewrite (get_provider_miss _ _ _ E). simpl.
    rewrite lookup_insert_ne; [done |]. intros ->. congruence.
Qed.

Lemma get_provider_frame cfg m st :
  world (_get_provider_for_model cfg m st).2 = world st
  ∧ log (_get_provider_for_model cfg m st).2 = log st.
Proof.
  destruct (_providers st !! m) as [p|] eqn:E.
  - by rewrite (get_provider_hit _ _ _ _ E).
  - by rewrite (get_provider_miss _ _ _ E).
Qed.



End Registry.


Section Selection.

Context {World : Type}.
Implicit Types (st : State World) (cfg : Config) (m k : string).

Lemma new_provider_kind cfg m :
  kind_of (new_provider cfg m) = select_client (get_provider_name cfg m) m.
Proof.
  unfold new_provider, select_client.
  destruct (Py.startswith m "openai-codex/") eqn:Hp.
  - rewrite orb_true_r. rewrite decide_True; [done | by right].
  - rewrite orb_false_r.
    destruct (decide (get_provider_name cfg m = Some "openai_codex")) as [E|E].
    + rewrite (bool_decide_eq_true_2 _ E).
      rewrite decide_True; [done | by left].
    + rewrite (bool_decide_eq_false_2 _ E).
      rewrite decide_False; [| intros [|]; congruence].
      destruct (decide (get_provider_name cfg m = Some "custom")) as [C|C].
      * by rewrite (bool_decide_eq_true_2 _ C).
      * by rewrite (bool_decide_eq_false_2 _ C).
Qed.

Lemma new_provider_bound cfg m : bound_model (new_provider cfg m) = m.
Proof.
  unfold new_provider.
  destruct (_ || _); [done |]. by destruct (bool_decide _).
Qed.

Lemma cache_of_get cfg m st :
  cache_of cfg st →
  cache_of cfg (_get_provider_for_model cfg m st).2
  ∧ impl (_get_provider_for_model cfg m st).1 = new_provider cfg m.
Proof.
  intros Hc. destruct (_providers st !! m) as [q|] eqn:E.
  - rewrite (get_provider_hit _ _ _ _ E). split; [done |]. by apply Hc.
  - rewrite (get_provider_miss _ _ _ E). split; [| done].
    intros k p. simpl. rewrite lookup_insert.
    destruct (decide (m = k)) as [->|]; [by intros [= <-] | apply Hc].
Qed.

Lemma cache_of_resolve_all cfg (ms : list string) st :
  cache_of cfg st → cache_of cfg (resolve_all ((λ k, (cfg, k)) <$> ms) st).
Proof.
  revert st. induction ms as [|k ms IH]; intros st Hc; [done |].
  apply IH. by apply cache_of_get.
Qed.

(** C8: a model that is not yet cached gets the client its provider name
    and identifier select: the OAuth client for the name "openai_codex" or
    an identifier starting with "openai-codex/", else the direct-endpoint
    client for the name "custom", else the gateway client; the client is
    bound to the identifier; a missing provider entry or endpoint is
    replaced by "no-key" and "http://localhost:8000/v1" for the
    direct-endpoint client and by unset values for the gateway client; and
    resolution is a total function, so nothing is raised.  In a cache filled
    under one configuration a cached client is of the selected kind too. *)
Theorem resolve_selects_by_priority cfg m st (earlier : list string)
    (w : World) :
  _providers st !! m = None →
  let p := impl (_get_provider_for_model cfg m st).1 in
  let name := get_provider_name cfg m in
  let oauth := name = Some "openai_codex" ∨ ∃ r, m = "openai-codex/" +:+ r in
  kind_of p = select_client name m
  ∧ bound_model p = m
  ∧ (oauth → p = OpenAICodexProvider m)
  ∧ (¬ oauth → name = Some "custom" →
     ∃ key base, p = CustomProvider key base m
       ∧ (get_provider cfg m = None → key = Some "no-key")
       ∧ (∀ pc, get_provider cfg m = Some pc → key = api_key pc)
       ∧ (get_api_base cfg m = None ∨ get_api_base cfg m = Some "" →
          base = "http://localhost:8000/v1")
       ∧ (∀ b, get_api_base cfg m = Some b → b ≠ "" → base = b))
  ∧ (¬ oauth → name ≠ Some "custom" →
     ∃ key base headers, p = LiteLLMProvider key base m headers name
       ∧ (get_provider cfg m = None →
          key = None ∧ base = None ∧ headers = None)
       ∧ (∀ pc, get_provider cfg m = Some pc →
          key = api_key pc ∧ base = api_base pc
          ∧ headers = extra_headers pc))
  ∧ (let st' := resolve_all ((λ k, (cfg, k)) <$> earlier) (initial_state w) in
     kind_of (impl (_get_provider_for_model cfg m st').1)
     = select_client name m).
Proof.
  intros Hmiss p name oauth. subst p.
  rewrite (get_provider_miss _ _ _ Hmiss). simpl.
  assert (Ho : oauth ↔ bool_decide (name = Some "openai_codex")
                       || Py.startswith m "openai-codex/" = true).
  { unfold oauth. rewrite orb_true_iff, bool_decide_eq_true, startswith_iff.
    done. }
  split; [apply new_provider_kind |].
  split; [apply new_provider_bound |].
  split; [| split; [| split]].
  - intros H%Ho. unfold new_provider. fold name. by rewrite H.
  - intros Hn%(not_iff_compat Ho)%not_true_is_false Hc.
    unfold new_provider. fold name. rewrite Hn.
    rewrite (bool_decide_eq_true_2 _ Hc).
    eexists _, _. split; [reflexivity |].
    split; [by intros -> |]. split; [by intros pc -> |].
    split; [by intros [-> | ->] |].
    intros b -> Hb. simpl. by rewrite (truthy_ne _ Hb).
  - intros Hn%(not_iff_compat Ho)%not_true_is_false Hc.
    unfold new_provider. fold name. rewrite Hn.
    rewrite (bool_decide_eq_false_2 _ Hc).
    eexists _, _, _. split; [reflexivity |].
    split; [by intros -> | by intros pc ->].
  - set (st' := resolve_all _ _).
    destruct (cache_of_get cfg m st') as [_ ->].
    + apply cache_of_resolve_all. intros k q. simpl. by rewrite lookup_empty.
    + apply new_provider_kind.
Qed.

End Selection.

(** ** The fallback loop *)

Lemma tried_app (a b : list LogEvent) : tried (a ++ b) = tried a ++ tried b.
Proof.
  induction a as [|ev a IH]; [done |].
  destruct ev; simpl; by rewrite ?IH.
Qed.

Lemma indicates_error_iff (r : LLMResponse) :
  indicates_error r = true ↔
  finish_reason r = "error"
  ∨ ∃ rest, content r = Some ("Error calling LLM:" +:+ rest).
Proof.
  unfold indicates_error.
  rewrite orb_true_iff, bool_decide_eq_true, andb_true_iff.
  split; (intros [H|H]; [by left | right]).
  - destruct H as [_ H]. destruct (content r) as [c|]; [| done].
    apply startswith_inv in H as [rest ->]. by exists rest.
  - destruct H as [rest ->]. split; [done |]. apply startswith_append.
Qed.

Lemma or_str_failure_message (r : LLMResponse) :
  Py.or_str (content r) "Unknown error" = failure_message (Returned r).
Proof. simpl. by destruct (content r) as [[|c s]|]. Qed.

Section Fallback.

Context {World Request : Type}.
Variable provider_chat :
  LLMProvider → Request → string → World → outcome * World.
Variables (cfg : Config) (req : Request) (mtt : list string).

Local Abbreviation try_model' := (try_model provider_chat cfg req mtt).
Local Abbreviation chat_loop' := (chat_loop provider_chat cfg req mtt).
Local Abbreviation backend_call' := (backend_call provider_chat cfg req).
Local Abbreviation state_after' := (state_after provider_chat cfg req mtt).
Local Abbreviation all_fail' := (all_fail provider_chat cfg req mtt).
Local Abbreviation failure_records' := (failure_records provider_chat cfg req mtt).

Implicit Types (st : State World) (m : string) (ms : list string).

(** One iteration, by what the backend did. *)
Lemma try_model_raised idx m st e w :
  backend_call' m st = (Raised e, w) →
  (try_model' idx m st).1 = inr (m, e)
  ∧ world (try_model' idx m st).2 = w
  ∧ tried (log (try_model' idx m st).2) = tried (log st) ++ [m].
Proof.
  unfold backend_call, try_model.
  pose proof (get_provider_frame cfg m st) as [Hw Hl].
  destruct (_get_provider_for_model cfg m st) as [p st1]. simpl in *.
  rewrite Hw. intros ->. simpl.
  rewrite !tried_app, Hl. simpl. by rewrite app_nil_r.
Qed.

Lemma try_model_soft idx m st r w :
  backend_call' m st = (Returned r, w) →
  indicates_error r = true →
  (try_model' idx m st).1 = inr (m, failure_message (Returned r))
  ∧ world (try_model' idx m st).2 = w
  ∧ tried (log (try_model' idx m st).2) = tried (log st) ++ [m].
Proof.
  unfold backend_call, try_model.
  pose proof (get_provider_frame cfg m st) as [Hw Hl].
  destruct (_get_provider_for_model cfg m st) as [p st1]. simpl in *.
  rewrite Hw. intros -> ->. rewrite or_str_failure_message. simpl.
  rewrite !tried_app, Hl. simpl. by rewrite app_nil_r.
Qed.

Lemma try_model_success idx m st r w :
  backend_call' m st = (Returned r, w) →
  indicates_error r = false →
  (try_model' idx m st).1 = inl r
  ∧ world (try_model' idx m st).2 = w
  ∧ tried (log (try_model' idx m st).2) = tried (log st) ++ [m].
Proof.
  unfold backend_call, try_model.
  pose proof (get_provider_frame cfg m st) as [Hw Hl].
  destruct (_get_provider_for_model cfg m st) as [p st1]. simpl in *.
  rewrite Hw. intros -> ->.
  destruct (_ && _); simpl; rewrite !tried_app, Hl; simpl;
    by rewrite ?app_nil_r.
Qed.

(** A failed call makes the iteration append its record. *)
Lemma try_model_failed idx m st :
  hard_failure (backend_call' m st).1 ∨ soft_failure (backend_call' m st).1 →
  (try_model' idx m st).1 = inr (m, failure_message (backend_call' m st).1)
  ∧ tried (log (try_model' idx m st).2) = tried (log st) ++ [m].
Proof.
  destruct (backend_call' m st) as [o w] eqn:E. simpl.
  intros [[e ->] | (r & -> & Hr)].
  - destruct (try_model_raised idx _ _ _ _ E) as (? & _ & ?). done.
  - apply indicates_error_iff in Hr.
    destruct (try_model_soft idx _ _ _ _ E Hr) as (? & _ & ?). done.
Qed.

Lemma chat_loop_step_failed idx m ms errs st :
  hard_failure (backend_call' m st).1 ∨ soft_failure (backend_call' m st).1 →
  chat_loop' idx (m :: ms) errs st
  = chat_loop' (S idx) ms
      (errs ++ [(m, failure_message (backend_call' m st).1)])
      (try_model' idx m st).2.
Proof.
  intros [H _]%(try_model_failed idx). simpl.
  destruct (try_model' idx m st) as [res st']. simpl in *. by rewrite H.
Qed.

(** A run of failures only moves the loop on. *)
Lemma chat_loop_all_fail idx pre rest errs st :
  all_fail' idx pre st →
  chat_loop' idx (pre ++ rest) errs st
  = chat_loop' (idx + length pre) rest
      (errs ++ failure_records' idx pre st) (state_after' idx pre st).
Proof.
  revert idx errs st. induction pre as [|m pre IH]; intros idx errs st Hf.
  - simpl. by rewrite Nat.add_0_r, app_nil_r.
  - destruct Hf as [Hm Hf]. simpl app.
    rewrite (chat_loop_step_failed _ _ _ _ _ Hm).
    rewrite (IH _ _ _ Hf). simpl.
    by rewrite <- app_assoc, Nat.add_succ_r.
Qed.

Lemma failure_records_models idx ms st :
  (failure_records' idx ms st).*1 = ms.
Proof.
  revert idx st. induction ms as [|m ms IH]; intros idx st; [done |].
  simpl. by rewrite IH.
Qed.

Lemma failure_records_length idx ms st :
  length (failure_records' idx ms st) = length ms.
Proof. by rewrite <- (failure_records_models idx ms st) at 2; rewrite length_fmap. Qed.

Lemma tried_state_after idx ms st :
  all_fail' idx ms st →
  tried (log (state_after' idx ms st)) = tried (log st) ++ ms.
Proof.
  revert idx st. induction ms as [|m ms IH]; intros idx st Hf.
  - simpl. by rewrite app_nil_r.
  - destruct Hf as [Hm Hf]. simpl. rewrite (IH _ _ Hf).
    destruct (try_model_failed idx _ _ Hm) as [_ ->].
    by rewrite <- app_assoc.
Qed.

(** Every iteration tries exactly its own candidate. *)
Lemma try_model_tried idx m st :
  tried (log (try_model' idx m st).2) = tried (log st) ++ [m].
Proof.
  destruct (backend_call' m st) as [[r|e] w] eqn:E.
  - destruct (indicates_error r) eqn:Hi.
    + by destruct (try_model_soft idx _ _ _ _ E Hi) as (_ & _ & ?).
    + by destruct (try_model_success idx _ _ _ _ E Hi) as (_ & _ & ?).
  - by destruct (try_model_raised idx _ _ _ _ E) as (_ & _ & ?).
Qed.

(** The loop tries an initial segment of its candidates, in order. *)
Lemma chat_loop_tried idx ms errs st :
  ∃ n, tried (log (chat_loop' idx ms errs st).2)
       = tried (log st) ++ take n ms.
Proof.
  revert idx errs st. induction ms as [|m ms IH]; intros idx errs st.
  - exists 0. simpl. by rewrite app_nil_r.
  - simpl. pose proof (try_model_tried idx m st) as Ht.
    destruct (try_model' idx m st) as [[r|rec] st']; simpl in Ht.
    + exists 1. simpl. by rewrite take_0.
    + destruct (IH (S idx) (errs ++ [rec]) st') as [n Hn].
      exists (S n). rewrite Hn, Ht. simpl. by rewrite <- app_assoc.
Qed.

Lemma chat_loop_exhausted idx ms errs st :
  all_fail' idx ms st →
  chat_loop' idx ms errs st
  = (None, errs ++ failure_records' idx ms st, state_after' idx ms st).
Proof.
  intros Hf.
  pose proof (chat_loop_all_fail idx ms [] errs st Hf) as H.
  by rewrite app_nil_r in H.
Qed.

End Fallback.

(** ** The error summary *)

Lemma join_cons2 (sep x y : string) (l : list string) :
  Py.join sep (x :: y :: l) = x +:+ sep +:+ Py.join sep (y :: l).
Proof. reflexivity. Qed.

Lemma error_entry_short (m e : string) :
  String.length e ≤ 50 → error_entry (m, e) = m +:+ ": " +:+ e.
Proof.
  intros H. unfold error_entry, Py.len.
  rewrite bool_decide_eq_false_2; [done | lia].
Qed.

Lemma error_entry_long (m e : string) :
  50 < String.length e →
  ∃ p rest, e = p +:+ rest ∧ String.length p = 50
    ∧ error_entry (m, e) = m +:+ ": " +:+ p +:+ "...".
Proof.
  intros H. unfold error_entry, Py.len.
  rewrite bool_decide_eq_true_2; [| done].
  destruct (slice_to_split 50 e) as [Hl [rest Hr]]; [lia |].
  by exists (Py.slice_to 50 e), rest.
Qed.

Lemma error_entry_shape (rec : string * string) :
  ∃ shown, error_entry rec = rec.1 +:+ ": " +:+ shown
    ∧ (String.length rec.2 ≤ 50 → shown = rec.2).
Proof.
  destruct rec as [m e]. cbn [fst snd].
  destruct (decide (String.length e ≤ 50)) as [H|H].
  - exists e. split; [by apply error_entry_short | done].
  - destruct (error_entry_long m e) as (p & rest & _ & _ & ->); [lia |].
    exists (p +:+ "..."). split; [done | lia].
Qed.

Lemma error_entry_shown (rec : string * string) :
  ∃ shown, error_entry rec = rec.1 +:+ ": " +:+ shown
    ∧ (String.length rec.2 ≤ 50 → shown = rec.2)
    ∧ (50 < String.length rec.2 →
       ∃ p rest, rec.2 = p +:+ rest ∧ String.length p = 50
         ∧ shown = p +:+ "...").
Proof.
  destruct rec as [m e]. cbn [fst snd].
  destruct (decide (String.length e ≤ 50)) as [H|H].
  - exists e. split; [by apply error_entry_short |]. split; [done | lia].
  - destruct (error_entry_long m e) as (p & rest & He & Hp & ->); [lia |].
    exists (p +:+ "..."). split; [done |]. split; [lia |].
    intros _. by exists p, rest.
Qed.

Lemma summary_contains_models (errs : list (string * string)) (a : string) :
  contains_in_order (errs.*1) (a +:+ error_summary errs).
Proof.
  unfold error_summary. revert a.
  induction errs as [|rec errs IH]; intros a; [done |].
  destruct (error_entry_shape rec) as (shown & Hs & _).
  destruct errs as [|rec' errs].
  - exists a, (": " +:+ shown). simpl. by rewrite Hs.
  - exists a, ((": " +:+ shown +:+ "; ")
               +:+ Py.join "; " (error_entry <$> rec' :: errs)).
    split; [| apply IH].
    rewrite !fmap_cons, join_cons2, Hs. rewrite <- !fmap_cons.
    by rewrite !append_assoc.
Qed.

(** ** What [chat] returns *)

Section Dispatch.

Context {World Request : Type}.
Variable provider_chat :
  LLMProvider → Request → string → World → outcome * World.
Variables (cfg : Config) (req : Request).

Local Abbreviation chat_with' := (chat_with provider_chat cfg).
Local Abbreviation chat_errors' := (chat_errors provider_chat cfg).
Local Abbreviation call := (backend_call provider_chat cfg req).
Local Abbreviation after := (state_after provider_chat cfg req).
Local Abbreviation failing := (all_fail provider_chat cfg req).
Local Abbreviation records := (failure_records provider_chat cfg req).

Implicit Types (st : State World) (ms pre post : list string).
Implicit Types (model : option string) (c : string).

(** The loop up to and including a first success. *)
Lemma chat_loop_first_success mtt pre c post st r :
  failing mtt 0 pre st →
  (call c (after mtt 0 pre st)).1 = Returned r →
  ¬ soft_failure (Returned r) →
  let st1 := after mtt 0 pre st in
  let res := try_model provider_chat cfg req mtt (length pre) c st1 in
  chat_loop provider_chat cfg req mtt 0 (pre ++ c :: post) [] st
  = (Some r, records mtt 0 pre st, res.2)
  ∧ world res.2 = (call c st1).2
  ∧ tried (log res.2) = tried (log st) ++ pre ++ [c].
Proof.
  intros Hf Hc Hs st1 res. subst st1 res.
  rewrite (chat_loop_all_fail _ _ _ _ 0 pre (c :: post) [] st Hf).
  set (st1 := after mtt 0 pre st) in *. simpl.
  set (res := try_model provider_chat cfg req mtt (length pre) c st1).
  assert (Hi : indicates_error r = false).
  { apply not_true_is_false. intros Hi%indicates_error_iff.
    apply Hs. by exists r. }
  destruct (call c st1) as [o w] eqn:E. simpl in Hc. subst o.
  destruct (try_model_success _ _ _ mtt (length pre) _ _ _ _ E Hi)
    as (H1 & H2 & H3).
  fold res in H1, H2, H3. destruct res as [x st2]. simpl in *. subst x.
  split; [done |]. split; [done |].
  unfold st1 in H3. rewrite H3.
  rewrite (tried_state_after _ _ _ _ _ _ _ Hf). by rewrite <- app_assoc.
Qed.

(** C2: when the candidates before [c] all fail and [c] succeeds, [chat]
    returns the response of [c] as the backend gave it, the loop stops
    there (the models tried are those up to [c], the world is the one the
    call of [c] left), and the failure records are one per earlier
    candidate, in try order; in particular one record, for candidate 1,
    when candidate 1 raises and candidate 2 succeeds. *)
Theorem first_success_is_returned ms model st pre c post r :
  models_to_try ms model = pre ++ c :: post →
  failing (models_to_try ms model) 0 pre st →
  (call c (after (models_to_try ms model) 0 pre st)).1 = Returned r →
  ¬ soft_failure (Returned r) →
  (chat_with' ms req model st).1 = r
  ∧ chat_errors' ms req model st = records (models_to_try ms model) 0 pre st
  ∧ (chat_errors' ms req model st).*1 = pre
  ∧ length (chat_errors' ms req model st) = length pre
  ∧ tried (log (chat_with' ms req model st).2) = tried (log st) ++ pre ++ [c]
  ∧ world (chat_with' ms req model st).2
    = (call c (after (models_to_try ms model) 0 pre st)).2
  ∧ (∀ c1 e, pre = [c1] → (call c1 st).1 = Raised e →
     chat_errors' ms req model st = [(c1, e)]).
Proof.
  intros Hm Hf Hc Hs.
  destruct (chat_loop_first_success _ pre c post st r Hf Hc Hs)
    as (Hl & Hw & Ht).
  rewrite <- Hm in Hl.
  unfold chat_with, chat_errors. rewrite Hl. simpl.
  rewrite failure_records_models, failure_records_length.
  repeat split; try done.
  intros c1 e -> He. simpl. by rewrite He.
Qed.

(** C4: a response that the backend returned is a soft failure exactly
    when its finish-reason is "error" or its content begins with
    "Error calling LLM:"; the iteration then records the candidate with
    the content, or with "Unknown error" when there is none or it is empty,
    and the loop goes on with the next candidate; any other response ends
    the loop. *)
Theorem soft_failure_is_recorded mtt idx c st r w (rest : list string)
    (errs : list (string * string)) :
  call c st = (Returned r, w) →
  let res := try_model provider_chat cfg req mtt idx c st in
  let soft := finish_reason r = "error"
              ∨ ∃ tail, content r = Some ("Error calling LLM:" +:+ tail) in
  let msg := match content r with
             | Some "" | None => "Unknown error"
             | Some text => text
             end in
  ((∃ rec, res.1 = inr rec) ↔ soft)
  ∧ (soft →
     res.1 = inr (c, msg)
     ∧ chat_loop provider_chat cfg req mtt idx (c :: rest) errs st
       = chat_loop provider_chat cfg req mtt (S idx) rest
           (errs ++ [(c, msg)]) res.2)
  ∧ (¬ soft →
     res.1 = inl r
     ∧ chat_loop provider_chat cfg req mtt idx (c :: rest) errs st
       = (Some r, errs, res.2)).
Proof.
  intros Hc res soft msg.
  assert (Hsoft : soft →
            res.1 = inr (c, msg)
            ∧ chat_loop provider_chat cfg req mtt idx (c :: rest) errs st
              = chat_loop provider_chat cfg req mtt (S idx) rest
                  (errs ++ [(c, msg)]) res.2).
  { intros Hs%indicates_error_iff.
    destruct (try_model_soft _ _ _ mtt idx _ _ _ _ Hc Hs) as (H1 & _).
    fold res in H1. split; [exact H1 |].
    simpl. fold res. destruct res as [x st']. simpl in H1. by subst x. }
  assert (Hok : ¬ soft →
            res.1 = inl r
            ∧ chat_loop provider_chat cfg req mtt idx (c :: rest) errs st
              = (Some r, errs, res.2)).
  { intros Hs. assert (Hi : indicates_error r = false).
    { apply not_true_is_false. by intros Hi%indicates_error_iff. }
    destruct (try_model_success _ _ _ mtt idx _ _ _ _ Hc Hi) as (H1 & _).
    fold res in H1. split; [exact H1 |].
    simpl. fold res. destruct res as [x st']. simpl in H1. by subst x. }
  split; [| by split].
  split.
  - intros [rec Hrec]. destruct (indicates_error r) eqn:Hi.
    + by apply indicates_error_iff.
    + assert (Hn : ¬ soft).
      { intros Hs%indicates_error_iff. congruence. }
      destruct (Hok Hn) as [H1 _]. congruence.
  - intros Hs. exists (c, msg). by apply Hsoft.
Qed.

Lemma chat_with_exhausted ms model st :
  failing (models_to_try ms model) 0 (models_to_try ms model) st →
  (chat_with' ms req model st).1
  = mkLLMResponse
      (Some ("Error: All models failed. "
             +:+ error_summary (chat_errors' ms req model st)))
      "error" [] []
  ∧ chat_errors' ms req model st
    = records (models_to_try ms model) 0 (models_to_try ms model) st
  ∧ tried (log (chat_with' ms req model st).2)
    = tried (log st) ++ models_to_try ms model.
Proof.
  intros Hf. unfold chat_with, chat_errors.
  rewrite (chat_loop_exhausted _ _ _ _ _ _ [] _ Hf). simpl.
  split; [done |]. split; [done |].
  rewrite tried_app. simpl. rewrite app_nil_r.
  by apply tried_state_after.
Qed.

(** C3, as amended: when every candidate fails, hard or soft, [chat]
    returns a response with finish-reason "error" whose content is
    "Error: All models failed. " followed by the failure records joined by
    "; ", in try order and one per candidate, each shown as the candidate,
    ": " and its message, the message in full when it has at most 50
    characters and cut to its first 50 characters followed by "..." when
    it is longer; so the content begins with "Error: All models failed."
    and contains the candidates in try order.  [chat] is a total function:
    what a backend raises becomes a record, nothing is raised to the
    caller. *)
Theorem all_failed_error_response ms model st :
  failing (models_to_try ms model) 0 (models_to_try ms model) st →
  let resp := (chat_with' ms req model st).1 in
  let errs := chat_errors' ms req model st in
  finish_reason resp = "error"
  ∧ content resp
    = Some ("Error: All models failed. "
            +:+ Py.join "; " (error_entry <$> errs))
  ∧ errs.*1 = models_to_try ms model
  ∧ errs = records (models_to_try ms model) 0 (models_to_try ms model) st
  ∧ (∀ rec, rec ∈ errs →
     ∃ shown, error_entry rec = rec.1 +:+ ": " +:+ shown
       ∧ (String.length rec.2 ≤ 50 → shown = rec.2)
       ∧ (50 < String.length rec.2 →
          ∃ p rest, rec.2 = p +:+ rest ∧ String.length p = 50
            ∧ shown = p +:+ "..."))
  ∧ (∃ text, content resp = Some text
       ∧ Py.startswith text "Error: All models failed." = true
       ∧ contains_in_order (models_to_try ms model) text)
  ∧ tried (log (chat_with' ms req model st).2)
    = tried (log st) ++ models_to_try ms model.
Proof.
  intros Hf resp errs. subst resp errs.
  destruct (chat_with_exhausted ms model st Hf) as (Hr & He & Ht).
  rewrite Hr. cbn [content finish_reason].
  assert (Hm : (chat_errors' ms req model st).*1 = models_to_try ms model).
  { rewrite He. apply failure_records_models. }
  repeat split; try done.
  - intros rec _. apply error_entry_shown.
  - eexists. split; [reflexivity |]. split.
    + change "Error: All models failed. "
        with ("Error: All models failed." +:+ " ").
      rewrite append_assoc. apply startswith_append.
    + rewrite <- Hm. apply summary_contains_models.
Qed.

(** C5: in the report of a run in which every candidate failed, the entry
    of a record whose message is longer than 50 characters shows the first
    50 characters of the message followed by "...", and the entry of a
    record whose message has 50 characters or fewer shows all of it. *)
Theorem long_messages_are_truncated ms model st :
  failing (models_to_try ms model) 0 (models_to_try ms model) st →
  ∃ entries,
    content (chat_with' ms req model st).1
    = Some ("Error: All models failed. " +:+ Py.join "; " entries)
    ∧ Forall2
        (λ rec entry,
           (50 < String.length rec.2 →
            ∃ p rest, rec.2 = p +:+ rest ∧ String.length p = 50
              ∧ entry = rec.1 +:+ ": " +:+ p +:+ "...")
           ∧ (String.length rec.2 ≤ 50 →
              entry = rec.1 +:+ ": " +:+ rec.2))
        (chat_errors' ms req model st) entries.
Proof.
  intros Hf.
  destruct (chat_with_exhausted ms model st Hf) as (Hr & _ & _).
  exists (error_entry <$> chat_errors' ms req model st).
  split; [by rewrite Hr |].
  apply Forall2_fmap_r, Forall_Forall2_diag, Forall_forall.
  intros [m e] _. cbn [fst snd]. split.
  - apply error_entry_long.
  - apply error_entry_short.
Qed.

(** C10, as amended: an empty string given as [model] counts as no model:
    the candidate list is the configured list as it is, the whole call
    behaves as the call without a model, and the models tried are
    configured ones, so the empty string is tried only where it is itself
    configured as a model. *)
Theorem empty_model_is_no_request ms st :
  models_to_try ms (Some "") = ms
  ∧ models_to_try ms (Some "") = models_to_try ms None
  ∧ chat_with' ms req (Some "") st = chat_with' ms req None st
  ∧ (∃ n, tried (log (chat_with' ms req (Some "") st).2)
          = tried (log st) ++ take n ms)
  ∧ ("" ∉ ms →
     ("" ∉ models_to_try ms (Some ""))
     ∧ ∀ new, tried (log (chat_with' ms req (Some "") st).2)
              = tried (log st) ++ new → "" ∉ new).
Proof.
  assert (Ht : ∃ n, tried (log (chat_with' ms req (Some "") st).2)
                    = tried (log st) ++ take n ms).
  { unfold chat_with. simpl.
    destruct (chat_loop_tried provider_chat cfg req ms 0 ms [] st)
      as [n Hn].
    exists n.
    destruct (chat_loop provider_chat cfg req ms 0 ms [] st)
      as [[[r|] errs] st']; simpl in *; [done |].
    rewrite tried_app. simpl. by rewrite app_nil_r. }
  split; [done |]. split; [done |]. split; [done |]. split; [exact Ht |].
  intros Hms. split; [exact Hms |].
  intros new Hnew. destruct Ht as [n Hn].
  rewrite Hn in Hnew. apply app_inv_head in Hnew as <-.
  intros Hin. apply Hms. eapply subseteq_take, Hin.
Qed.

End Dispatch.

(** ** The accessors *)

Section Accessors.

Context {World Request : Type}.
Variable provider_chat :
  LLMProvider → Request → string → World → outcome * World.

Implicit Types (self : MultiModelProvider) (h : gmap nat (list string)).

Lemma alloc_fresh (v : list string) h : h !! (alloc v h).1 = None.
Proof. unfold alloc. simpl. apply not_elem_of_dom, is_fresh. Qed.

Lemma deref_insert_ne h (l l' : nat) (v : list string) :
  l ≠ l' → deref (<[l := v]> h) l' = deref h l'.
Proof. intros Hne. unfold deref. by rewrite lookup_insert_ne. Qed.

(** C9: [get_models] returns a list equal to the configured one, held in
    a list object of its own; whatever the caller then makes of the
    returned list, the provider's list is what it was, and so are
    [get_default_model] and [chat]. *)
Theorem get_models_returns_copy self h (v : list string) (req : Request)
    (model : option string) (st : State World) :
  is_Some (h !! models self) →
  let l := (get_models self h).1 in
  let h' := (get_models self h).2 in
  deref h' l = deref h (models self)
  ∧ l ≠ models self
  ∧ deref h' (models self) = deref h (models self)
  ∧ deref (<[l := v]> h') (models self) = deref h (models self)
  ∧ get_default_model self (<[l := v]> h') = get_default_model self h
  ∧ chat provider_chat self (<[l := v]> h') req model st
    = chat provider_chat self h req model st
  ∧ (∀ k, k ≠ l → <[l := v]> h' !! k = h !! k).
Proof.
  intros [ms Hms] l h'.
  assert (Hl : l ≠ models self).
  { intros E. pose proof (alloc_fresh (deref h (models self)) h) as Hf.
    change (alloc (deref h (models self)) h).1 with l in Hf.
    rewrite E in Hf. congruence. }
  assert (Hh : h' = <[l := deref h (models self)]> h) by done.
  assert (Hd : deref (<[l := v]> h') (models self) = deref h (models self)).
  { rewrite Hh, !deref_insert_ne; done. }
  split; [| split; [done | split; [| split; [done | split; [| split]]]]].
  - rewrite Hh. unfold deref at 1. by rewrite lookup_insert_eq.
  - rewrite Hh. by apply deref_insert_ne.
  - unfold get_default_model. by rewrite Hd.
  - unfold chat. by rewrite Hd.
  - intros k Hk. rewrite Hh, !lookup_insert_ne; done.
Qed.

End Accessors.

(** ** The examples of the specification, and instances of the theorems *)

Example requested_model_goes_first :
  models_to_try ["a/x"; "b/y"] (Some "b/y") = ["b/y"; "a/x"].
Proof. reflexivity. Qed.

Example fallback_to_second_candidate :
  (chat_with scripted_chat no_config ["a/x"; "b/y"] tt (Some "b/y")
             (initial_state 0)).1
  = mkLLMResponse (Some "hi") "stop" [] [].
Proof. vm_compute. reflexivity. Qed.

Example fallback_is_logged :
  log (chat_with scripted_chat no_config ["a/x"; "b/y"] tt (Some "b/y")
                 (initial_state 0)).2
  = [Debug_trying 1 "b/y"; Warning_exception "b/y" "transport error";
     Debug_trying 2 "a/x"; Info_fallback "b/y" "a/x"].
Proof. vm_compute. reflexivity. Qed.

Example default_model_soft_fails :
  content (chat_with scripted_chat no_config ["d/z"] tt None
                     (initial_state 0)).1
  = Some "Error: All models failed. d/z: Error calling LLM: timeout".
Proof. vm_compute. reflexivity. Qed.

Lemma first_success_is_returned_witness :
  (chat_with scripted_chat no_config ["a/x"; "b/y"] tt (Some "b/y")
             (initial_state 0)).1
  = mkLLMResponse (Some "hi") "stop" [] []
  ∧ chat_errors scripted_chat no_config ["a/x"; "b/y"] tt (Some "b/y")
                (initial_state 0)
    = [("b/y", "transport error")].
Proof.
  assert (Hm : models_to_try ["a/x"; "b/y"] (Some "b/y")
               = ["b/y"] ++ "a/x" :: []) by reflexivity.
  assert (Hf : all_fail scripted_chat no_config tt
                 (models_to_try ["a/x"; "b/y"] (Some "b/y")) 0 ["b/y"]
                 (initial_state 0)).
  { split; [| exact I]. left. by exists "transport error". }
  assert (Hc : (backend_call scripted_chat no_config tt "a/x"
                  (state_after scripted_chat no_config tt
                     (models_to_try ["a/x"; "b/y"] (Some "b/y")) 0 ["b/y"]
                     (initial_state 0))).1
               = Returned (mkLLMResponse (Some "hi") "stop" [] []))
    by (vm_compute; reflexivity).
  assert (Hs : ¬ soft_failure (Returned (mkLLMResponse (Some "hi") "stop" [] []))).
  { intros (r & [= <-] & [H | [tail H]]); discriminate H. }
  destruct (first_success_is_returned scripted_chat no_config tt
              ["a/x"; "b/y"] (Some "b/y") (initial_state 0)
              ["b/y"] "a/x" [] _ Hm Hf Hc Hs) as (Hr & _ & _ & _ & _ & _ & H1).
  split; [exact Hr |].
  by apply (H1 "b/y" "transport error").
Defined.

Lemma all_failed_error_response_witness :
  all_fail scripted_chat no_config tt ["d/z"; "b/y"] 0 ["d/z"; "b/y"]
           (initial_state 0)
  ∧ content (chat_with scripted_chat no_config ["d/z"; "b/y"] tt None
                       (initial_state 0)).1
    = Some ("Error: All models failed. "
            +:+ "d/z: Error calling LLM: timeout; b/y: transport error").
Proof.
  assert (Hf : all_fail scripted_chat no_config tt
                 (models_to_try ["d/z"; "b/y"] None) 0
                 (models_to_try ["d/z"; "b/y"] None) (initial_state 0)).
  { split; [| split; [| exact I]].
    - right. eexists. split; [reflexivity |]. right. by exists " timeout".
    - left. by exists "transport error". }
  split; [exact Hf |].
  destruct (all_failed_error_response scripted_chat no_config tt
              ["d/z"; "b/y"] None (initial_state 0) Hf) as (_ & Hc & _).
  rewrite Hc. vm_compute. reflexivity.
Defined.

Lemma soft_failure_is_recorded_witness :
  backend_call scripted_chat no_config tt "d/z" (initial_state 0)
  = (Returned (mkLLMResponse (Some "Error calling LLM: timeout") "stop" [] []),
     1)
  ∧ (try_model scripted_chat no_config tt ["d/z"] 0 "d/z" (initial_state 0)).1
    = inr ("d/z", "Error calling LLM: timeout").
Proof.
  assert (Hc : backend_call scripted_chat no_config tt "d/z" (initial_state 0)
               = (Returned (mkLLMResponse (Some "Error calling LLM: timeout")
                                          "stop" [] []), 1))
    by reflexivity.
  split; [exact Hc |].
  destruct (soft_failure_is_recorded scripted_chat no_config tt ["d/z"] 0
              "d/z" (initial_state 0) _ _ [] [] Hc) as (_ & Hs & _).
  apply Hs. right. by exists " timeout".
Defined.

Lemma long_messages_are_truncated_witness :
  all_fail scripted_chat no_config tt ["c/long"] 0 ["c/long"]
           (initial_state 0)
  ∧ ∃ entries,
      content (chat_with scripted_chat no_config ["c/long"] tt None
                         (initial_state 0)).1
      = Some ("Error: All models failed. " +:+ Py.join "; " entries)
      ∧ length entries = 1.
Proof.
  assert (Hf : all_fail scripted_chat no_config tt
                 (models_to_try ["c/long"] None) 0
                 (models_to_try ["c/long"] None) (initial_state 0)).
  { split; [| exact I]. left. by eexists. }
  split; [exact Hf |].
  destruct (long_messages_are_truncated scripted_chat no_config tt
              ["c/long"] None (initial_state 0) Hf) as (entries & Hc & Hall).
  exists entries. split; [exact Hc |].
  by rewrite <- (Forall2_length _ _ _ Hall).
Defined.

Example long_message_in_report :
  content (chat_with scripted_chat no_config ["c/long"] tt None
                     (initial_state 0)).1
  = Some ("Error: All models failed. c/long: "
          +:+ "connection refused by the upstream gateway after 3..."). 
Proof. vm_compute. reflexivity. Qed.

Lemma resolve_selects_by_priority_witness :
  _providers (initial_state 0) !! "local/m" = None
  ∧ impl (_get_provider_for_model custom_config "local/m" (initial_state 0)).1
    = CustomProvider (Some "no-key") "http://localhost:8000/v1" "local/m".
Proof.
  assert (Hmiss : _providers (initial_state 0) !! "local/m" = None)
    by apply lookup_empty.
  split; [exact Hmiss |].
  destruct (resolve_selects_by_priority custom_config "local/m"
              (initial_state 0) [] 0 Hmiss)
    as (_ & _ & _ & Hcustom & _).
  destruct Hcustom as (key & base & -> & Hkey & _ & Hbase & _).
  - intros [H | [r H]]; discriminate H.
  - reflexivity.
  - rewrite Hkey, Hbase; [done | by left | done].
Defined.

Lemma get_models_returns_copy_witness :
  is_Some (({[0 := ["a/x"; "b/y"]]} : gmap nat (list string)) !! 0)
  ∧ let self := mkMultiModelProvider no_config 0 "d/z" in
    let h := {[0 := ["a/x"; "b/y"]]} in
    deref (<[(get_models self h).1 := []]> (get_models self h).2) 0
    = ["a/x"; "b/y"].
Proof.
  assert (Hs : is_Some (({[0 := ["a/x"; "b/y"]]} : gmap nat (list string)) !! 0))
    by (rewrite lookup_singleton_eq; eauto).
  split; [exact Hs |].
  intros self h.
  destruct (get_models_returns_copy scripted_chat self h [] tt None
              (initial_state 0) Hs) as (_ & _ & _ & Hd & _).
  etrans; [exact Hd |].
  unfold deref, h. simpl. by rewrite lookup_singleton_eq.
Defined.

Lemma empty_model_is_no_request_witness :
  ("" ∉ ["a/x"; "b/y"])
  ∧ models_to_try ["a/x"; "b/y"] (Some "") = ["a/x"; "b/y"]
  ∧ ("" ∉ models_to_try ["a/x"; "b/y"] (Some "")).
Proof.
  assert (Hn : "" ∉ ["a/x"; "b/y"]).
  { intros H%list_elem_of_In. simpl in H. by destruct H as [H | [H | []]]. }
  split; [exact Hn |].
  destruct (empty_model_is_no_request scripted_chat no_config tt
              ["a/x"; "b/y"] (initial_state 0)) as (H1 & _ & _ & _ & H2).
  split; [exact H1 |]. exact (proj1 (H2 Hn)).
Defined.

(** C10 as stated fails where the empty string is itself a configured
    model: it is then a candidate, and it is tried. *)
Lemma configured_empty_string_is_tried :
  models_to_try [""] (Some "") = [""]
  ∧ "" ∈ models_to_try [""] (Some "")
  ∧ tried (log (chat_with scripted_chat no_config [""] tt (Some "")
                          (initial_state 0)).2)
    = [""].
Proof.
  split; [reflexivity |]. split; [| vm_compute; reflexivity].
  apply list_elem_of_In. simpl. auto.
Qed.

(** C3 as stated fails for a message of more than 50 characters: the
    content is not the records joined with their messages in full. *)
Lemma long_message_is_not_shown_in_full :
  all_fail scripted_chat no_config tt (models_to_try ["c/long"] None) 0
           (models_to_try ["c/long"] None) (initial_state 0)
  ∧ chat_errors scripted_chat no_config ["c/long"] tt None (initial_state 0)
    = [("c/long",
        "connection refused by the upstream gateway after 3 attempts.")]
  ∧ content (chat_with scripted_chat no_config ["c/long"] tt None
                       (initial_state 0)).1
    ≠ Some ("Error: All models failed. "
            +:+ Py.join "; "
                  ((λ rec, rec.1 +:+ ": " +:+ rec.2)
                     <$> chat_errors scripted_chat no_config ["c/long"] tt
                           None (initial_state 0))).
Proof.
  split; [| split].
  - split; [| exact I]. left. by eexists.
  - vm_compute. reflexivity.
  - vm_compute. discriminate.
Qed.

(** * Further properties of the provider *)

(** ** More on the order of models to try *)

Lemma filter_others_id (ms : list string) (r : string) :
  filter (λ m, m ≠ r) ms = ms ↔ r ∉ ms.
Proof.
  split.
  - intros E Hin. apply (requested_not_in_others ms r). by rewrite E.
  - induction ms as [|m ms IH]; intros Hn; [done |].
    apply not_elem_of_cons in Hn as [Hne Hn].
    rewrite filter_cons_True; [| congruence]. by rewrite IH.
Qed.

(** X1: A requested model that is not configured is tried all the same,
    first, and every configured model follows; requesting a model never
    drops a configured model from the candidates and never adds another one. *)
Theorem requested_unconfigured_goes_first (ms : list string) (r : string) :
  r ≠ "" →
  (r ∉ ms ↔ models_to_try ms (Some r) = r :: ms)
  ∧ (∀ m, m ∈ models_to_try ms (Some r) ↔ m = r ∨ m ∈ ms)
  ∧ length (models_to_try ms (Some r)) ≤ S (length ms)
  ∧ (r ∈ ms → length (models_to_try ms (Some r)) ≤ length ms).
Proof.
  intros Hr. rewrite (models_to_try_truthy _ _ Hr).
  split; [| split; [| split]].
  - rewrite <- filter_others_id. split; [by intros -> | by intros [= ->]].
  - intros m. rewrite elem_of_cons, list_elem_of_filter. split.
    + intros [-> | [_ Hin]]; auto.
    + intros [-> | Hin]; [by left |].
      destruct (decide (m = r)) as [-> | Hne]; [by left | by right].
  - simpl. pose proof (length_filter (λ m, m ≠ r) ms). lia.
  - intros Hin. simpl.
    assert (length (filter (λ m, m ≠ r) ms) < length ms); [| lia].
    apply (length_filter_lt _ _ r); [done | by intros H; apply H].
Qed.

Lemma requested_unconfigured_goes_first_witness :
  "c/w" ≠ ""
  ∧ models_to_try ["a/x"; "b/y"] (Some "c/w") = ["c/w"; "a/x"; "b/y"].
Proof.
  assert (Hr : "c/w" ≠ "") by discriminate.
  split; [exact Hr |].
  destruct (requested_unconfigured_goes_first ["a/x"; "b/y"] "c/w" Hr)
    as (H & _).
  apply H. intros Hin%list_elem_of_In. simpl in Hin.
  by destruct Hin as [? | [? | []]].
Defined.

(** X2: Requesting a model of a configured list without duplicates only
    reorders the list. *)
Theorem requested_configured_permutes (ms : list string) (r : string) :
  r ≠ "" → NoDup ms → r ∈ ms → models_to_try ms (Some r) ≡ₚ ms.
Proof.
  intros Hr Hnd Hin. rewrite (models_to_try_truthy _ _ Hr).
  apply list_elem_of_split in Hin as (l1 & l2 & ->).
  apply NoDup_app in Hnd as (_ & H1 & [H2 _]%NoDup_cons).
  rewrite filter_app, filter_cons_False; [| by intros H; apply H].
  assert (E1 : filter (λ m, m ≠ r) l1 = l1).
  { apply filter_others_id. intros Hin. apply (H1 r Hin). by left. }
  assert (E2 : filter (λ m, m ≠ r) l2 = l2) by by apply filter_others_id.
  rewrite E1, E2. apply Permutation_middle.
Qed.

Lemma requested_configured_permutes_witness :
  ("b/y" ≠ "" ∧ NoDup ["a/x"; "b/y"; "d/z"] ∧ "b/y" ∈ ["a/x"; "b/y"; "d/z"])
  ∧ models_to_try ["a/x"; "b/y"; "d/z"] (Some "b/y")
    ≡ₚ ["a/x"; "b/y"; "d/z"].
Proof.
  assert (Hr : "b/y" ≠ "") by discriminate.
  assert (Hnd : NoDup ["a/x"; "b/y"; "d/z"]).
  { apply (bool_decide_unpack _). vm_compute. exact I. }
  assert (Hin : "b/y" ∈ ["a/x"; "b/y"; "d/z"]).
  { apply list_elem_of_In. simpl. auto. }
  split; [done |].
  exact (requested_configured_permutes _ _ Hr Hnd Hin).
Defined.

(** ** The list handed to the constructor *)

(** X3: [__init__] keeps the very list object it is given when that list is
    not empty: whatever the caller later makes of the list is what
    [self.models] is, so an emptied list makes [get_default_model] fall back
    to [default_model] and leaves [chat] without candidates. *)
Theorem init_keeps_the_callers_list (cfg : Config) (l : nat) (d : string)
    (h : gmap nat (list string)) (v : list string) :
  deref h l ≠ [] →
  __init__ cfg (Some l) d h = (mkMultiModelProvider cfg l d, h)
  ∧ let self := (__init__ cfg (Some l) d h).1 in
    deref (<[l := v]> h) (models self) = v
    ∧ models_to_try (deref (<[l := v]> h) (models self)) None = v
    ∧ get_default_model self (<[l := v]> h)
      = match v with m :: _ => m | [] => d end.
Proof.
  intros Hne.
  assert (Hi : __init__ cfg (Some l) d h = (mkMultiModelProvider cfg l d, h)).
  { unfold __init__. by destruct (deref h l). }
  split; [exact Hi |]. rewrite Hi. simpl.
  assert (Hd : deref (<[l := v]> h) l = v).
  { unfold deref. by rewrite lookup_insert_eq. }
  unfold get_default_model. simpl. by rewrite Hd.
Qed.

Lemma init_keeps_the_callers_list_witness :
  deref {[0 := ["a/x"]]} 0 ≠ []
  ∧ get_default_model
      (__init__ no_config (Some 0) "d/z" {[0 := ["a/x"]]}).1
      (<[0 := []]> {[0 := ["a/x"]]})
    = "d/z".
Proof.
  assert (Hne : deref {[0 := ["a/x"]]} 0 ≠ []).
  { unfold deref. by rewrite lookup_singleton_eq. }
  split; [exact Hne |].
  destruct (init_keeps_the_callers_list no_config 0 "d/z"
              {[0 := ["a/x"]]} [] Hne) as (_ & _ & _ & H).
  exact H.
Defined.

(** X4: An empty list handed to the constructor is not kept: the provider
    gets a list of its own, which later changes of the caller's list do not
    reach. *)
Theorem init_drops_an_empty_list (cfg : Config) (l : nat) (d : string)
    (h : gmap nat (list string)) (v : list string) :
  h !! l = Some [] →
  let self := (__init__ cfg (Some l) d h).1 in
  let h' := (__init__ cfg (Some l) d h).2 in
  models self ≠ l
  ∧ h' !! l = Some []
  ∧ deref (<[l := v]> h') (models self) = [d]
  ∧ get_default_model self (<[l := v]> h') = d.
Proof.
  intros Hl.
  assert (Hi : __init__ cfg (Some l) d h
               = (mkMultiModelProvider cfg (fresh (dom h)) d,
                  <[fresh (dom h) := [d]]> h)).
  { unfold __init__, deref. by rewrite Hl. }
  rewrite Hi. simpl.
  assert (Hne : fresh (dom h) ≠ l).
  { intros E. pose proof (is_fresh (dom h)) as Hf. rewrite E in Hf.
    apply Hf, elem_of_dom. by eexists. }
  assert (Hd : deref (<[l := v]> (<[fresh (dom h) := [d]]> h))
                 (fresh (dom h)) = [d]).
  { unfold deref. rewrite lookup_insert_ne; [| done].
    by rewrite lookup_insert_eq. }
  split; [done |]. split; [by rewrite lookup_insert_ne |].
  split; [exact Hd |]. unfold get_default_model. simpl. by rewrite Hd.
Qed.

Lemma init_drops_an_empty_list_witness :
  ({[0 := []]} : gmap nat (list string)) !! 0 = Some []
  ∧ get_default_model
      (__init__ no_config (Some 0) "d/z" {[0 := []]}).1
      (<[0 := ["a/x"]]> (__init__ no_config (Some 0) "d/z" {[0 := []]}).2)
    = "d/z".
Proof.
  assert (Hl : ({[0 := []]} : gmap nat (list string)) !! 0 = Some [])
    by apply lookup_singleton_eq.
  split; [exact Hl |].
  destruct (init_drops_an_empty_list no_config 0 "d/z" {[0 := []]}
              ["a/x"] Hl) as (_ & _ & _ & H).
  exact H.
Defined.

(** ** More on the fallback loop *)

#[local] Set Warnings "-clear-no-such-hyp".

Lemma warned_app (a b : list LogEvent) : warned (a ++ b) = warned a ++ warned b.
Proof.
  induction a as [|ev a IH]; [done |].
  destruct ev; simpl; by rewrite ?IH.
Qed.

Section Effects.

Context {World Request : Type}.
Variable provider_chat :
  LLMProvider → Request → string → World → outcome * World.
Variables (cfg : Config) (req : Request).

Local Abbreviation try1 := (try_model provider_chat cfg req).
Local Abbreviation loop := (chat_loop provider_chat cfg req).
Local Abbreviation call1 := (backend_call provider_chat cfg req).
Local Abbreviation after1 := (state_after provider_chat cfg req).
Local Abbreviation failing1 := (all_fail provider_chat cfg req).
Local Abbreviation records1 := (failure_records provider_chat cfg req).

Implicit Types (st : State World) (ms pre post mtt : list string).
Implicit Types (model : option string) (m c : string).

(** What one iteration does to the cache and to the warnings of the log. *)
Lemma try_model_cache mtt idx m st :
  _providers (try1 mtt idx m st).2
  = _providers (_get_provider_for_model cfg m st).2
  ∧ next_obj (try1 mtt idx m st).2
    = next_obj (_get_provider_for_model cfg m st).2.
Proof.
  unfold try_model.
  destruct (_get_provider_for_model cfg m st) as [p st1]. simpl.
  destruct (provider_chat p req m (world st1)) as [[r|e] w]; [| done].
  destruct (indicates_error r); [done |]. by destruct (_ && _).
Qed.

Lemma try_model_warned mtt idx m st :
  warned (log (try1 mtt idx m st).2)
  = warned (log st)
    ++ match (try1 mtt idx m st).1 with inr rec => [rec] | inl _ => [] end.
Proof.
  unfold try_model.
  pose proof (get_provider_frame cfg m st) as [_ Hl].
  destruct (_get_provider_for_model cfg m st) as [p st1]. simpl in *.
  destruct (provider_chat p req m (world st1)) as [[r|e] w]; simpl.
  - destruct (indicates_error r); simpl.
    + rewrite !warned_app, Hl. simpl. by rewrite app_nil_r.
    + destruct (_ && _); simpl; rewrite !warned_app, Hl; simpl;
        by rewrite ?app_nil_r.
  - rewrite !warned_app, Hl. simpl. by rewrite app_nil_r.
Qed.

Lemma try_model_dom mtt idx m st :
  dom (_providers (try1 mtt idx m st).2) = dom (_providers st) ∪ {[m]}
  ∧ ∀ k q, _providers st !! k = Some q →
           _providers (try1 mtt idx m st).2 !! k = Some q.
Proof.
  destruct (try_model_cache mtt idx m st) as [-> _].
  split; [| intros k q; apply get_provider_preserves].
  destruct (_providers st !! m) as [p|] eqn:E.
  - rewrite (get_provider_hit _ _ _ _ E).
    assert (m ∈ dom (_providers st)) by (apply elem_of_dom; eauto).
    set_solver.
  - rewrite (get_provider_miss _ _ _ E). simpl. rewrite dom_insert_L.
    set_solver.
Qed.

(** What a run of the loop does, whatever the backends do: it tries an
    initial segment of its candidates, at least the first of them, caches a
    client for each model it tries and for no other, and logs its new
    failure records as warnings. *)
Lemma chat_loop_effects mtt idx ms errs st :
  ∃ n new,
    n ≤ length ms ∧ (ms ≠ [] → 1 ≤ n)
    ∧ ((loop mtt idx ms errs st).1.1 = None → n = length ms)
    ∧ tried (log (loop mtt idx ms errs st).2)
      = tried (log st) ++ take n ms
    ∧ dom (_providers (loop mtt idx ms errs st).2)
      = dom (_providers st) ∪ list_to_set (take n ms)
    ∧ (∀ k q, _providers st !! k = Some q →
              _providers (loop mtt idx ms errs st).2 !! k = Some q)
    ∧ (loop mtt idx ms errs st).1.2 = errs ++ new
    ∧ warned (log (loop mtt idx ms errs st).2) = warned (log st) ++ new.
Proof.
  revert idx errs st. induction ms as [|m ms IH]; intros idx errs st.
  - exists 0, []. simpl. rewrite !app_nil_r.
    repeat split; try done. set_solver.
  - simpl.
    pose proof (try_model_tried provider_chat cfg req mtt idx m st) as Ht.
    pose proof (try_model_warned mtt idx m st) as Hw.
    destruct (try_model_dom mtt idx m st) as [Hd Hp].
    destruct (try1 mtt idx m st) as [[r|rec] st']; simpl in *.
    + exists 1, []. simpl. rewrite take_0, !app_nil_r in *.
      repeat split; try done; try lia. rewrite Hd. set_solver.
    + destruct (IH (S idx) (errs ++ [rec]) st')
        as (n & new & Hn & _ & Hnone & Htr & Hdom & Hpre & Herr & Hwarn).
      exists (S n), (rec :: new). simpl.
      repeat split; try done; try lia.
      * intros Hx. by rewrite (Hnone Hx).
      * rewrite Htr, Ht. by rewrite <- app_assoc.
      * rewrite Hdom, Hd. set_solver.
      * intros k q Hk. by apply Hpre, Hp.
      * rewrite Herr. by rewrite <- app_assoc.
      * rewrite Hwarn, Hw. by rewrite <- app_assoc.
Qed.

Lemma try_model_success_log mtt idx m st r w :
  call1 m st = (Returned r, w) →
  indicates_error r = false →
  log (try1 mtt idx m st).2
  = log st ++ Debug_trying (idx + 1) m
      :: (if bool_decide (1 < length mtt) && bool_decide (0 < idx)
          then [Info_fallback (default "" (head mtt)) m] else []).
Proof.
  unfold backend_call, try_model.
  pose proof (get_provider_frame cfg m st) as [Hw Hl].
  destruct (_get_provider_for_model cfg m st) as [p st1]. simpl in *.
  rewrite Hw. intros -> ->.
  destruct (_ && _); simpl; rewrite Hl; [| done].
  by rewrite <- app_assoc.
Qed.

(** Either every candidate fails and the loop runs to its end, or the loop
    returns the response of the first candidate that does not fail. *)
Lemma chat_loop_cases mtt idx ms errs st :
  (failing1 mtt idx ms st
   ∧ loop mtt idx ms errs st
     = (None, errs ++ records1 mtt idx ms st, after1 mtt idx ms st))
  ∨ (∃ pre c post r,
       ms = pre ++ c :: post
       ∧ failing1 mtt idx pre st
       ∧ (call1 c (after1 mtt idx pre st)).1 = Returned r
       ∧ indicates_error r = false
       ∧ (loop mtt idx ms errs st).1.1 = Some r).
Proof.
  revert idx errs st. induction ms as [|m ms IH]; intros idx errs st.
  - left. simpl. by rewrite app_nil_r.
  - assert (Hfail : hard_failure (call1 m st).1 ∨ soft_failure (call1 m st).1 →
              (failing1 mtt idx (m :: ms) st
               ∧ loop mtt idx (m :: ms) errs st
                 = (None, errs ++ records1 mtt idx (m :: ms) st,
                    after1 mtt idx (m :: ms) st))
              ∨ (∃ pre c post r,
                   m :: ms = pre ++ c :: post
                   ∧ failing1 mtt idx pre st
                   ∧ (call1 c (after1 mtt idx pre st)).1 = Returned r
                   ∧ indicates_error r = false
                   ∧ (loop mtt idx (m :: ms) errs st).1.1 = Some r)).
    { intros Hm.
      rewrite (chat_loop_step_failed _ _ _ _ _ _ _ _ _ Hm).
      destruct (IH (S idx)
                  (errs ++ [(m, failure_message (call1 m st).1)])
                  (try1 mtt idx m st).2)
        as [[Hf He] | (pre & c & post & r & -> & Hf & Hc & Hi & Hr)].
      - left. split; [by split |]. rewrite He. simpl.
        by rewrite <- app_assoc.
      - right. exists (m :: pre), c, post, r.
        split; [done |]. split; [by split |]. by repeat split. }
    destruct (call1 m st) as [[r|e] w] eqn:E.
    + destruct (indicates_error r) eqn:Hi.
      * apply Hfail. right. exists r. split; [done |].
        by apply indicates_error_iff.
      * right. exists [], m, ms, r. simpl. rewrite E.
        repeat split; try done.
        destruct (try_model_success _ _ _ mtt idx _ _ _ _ E Hi) as (H1 & _).
        destruct (try1 mtt idx m st) as [x st']. simpl in *. by subst x.
    + apply Hfail. left. by exists e.
Qed.

End Effects.

(** ** More on what [chat] returns and leaves behind *)

Section Outcome.

Context {World Request : Type}.
Variable provider_chat :
  LLMProvider → Request → string → World → outcome * World.
Variables (cfg : Config) (req : Request).

Local Abbreviation run := (chat_with provider_chat cfg).
Local Abbreviation run_errors := (chat_errors provider_chat cfg).
Local Abbreviation call2 := (backend_call provider_chat cfg req).
Local Abbreviation after2 := (state_after provider_chat cfg req).
Local Abbreviation failing2 := (all_fail provider_chat cfg req).

Implicit Types (st : State World) (ms pre post : list string).
Implicit Types (model : option string) (m c : string).

(** The state [chat] leaves, in terms of the state the loop leaves. *)
Lemma chat_with_state ms model st :
  let mtt := models_to_try ms model in
  let st' := (chat_loop provider_chat cfg req mtt 0 mtt [] st).2 in
  tried (log (run ms req model st).2) = tried (log st')
  ∧ warned (log (run ms req model st).2) = warned (log st')
  ∧ _providers (run ms req model st).2 = _providers st'
  ∧ world (run ms req model st).2 = world st'.
Proof.
  intros mtt st'. subst st'. unfold chat_with. fold mtt.
  destruct (chat_loop provider_chat cfg req mtt 0 mtt [] st)
    as [[[r|] errs] st']; simpl; [done |].
  rewrite tried_app, warned_app. simpl. by rewrite !app_nil_r.
Qed.

(** X5: Whatever the backends do, [chat] tries an initial segment of the
    candidate list, in order and each candidate once, and at least the first
    candidate. *)
Theorem chat_tries_initial_segment ms model st :
  ∃ n, n ≤ length (models_to_try ms model)
    ∧ (models_to_try ms model ≠ [] → 1 ≤ n)
    ∧ tried (log (run ms req model st).2)
      = tried (log st) ++ take n (models_to_try ms model).
Proof.
  destruct (chat_with_state ms model st) as (Ht & _).
  destruct (chat_loop_effects provider_chat cfg req
              (models_to_try ms model) 0 (models_to_try ms model) [] st)
    as (n & new & Hn & H1 & _ & Htr & _).
  exists n. rewrite Ht, Htr. done.
Qed.

(** X6: [chat] leaves in the cache every client that was there, adds a
    client for each model it tried and for no other model; a model it tried
    is served from the cache from then on. *)
Theorem chat_caches_the_models_it_tries ms model st (new : list string) :
  tried (log (run ms req model st).2) = tried (log st) ++ new →
  dom (_providers (run ms req model st).2)
  = dom (_providers st) ∪ list_to_set new
  ∧ (∀ k q, _providers st !! k = Some q →
            _providers (run ms req model st).2 !! k = Some q)
  ∧ (∀ m cfg', m ∈ new →
       ∃ p, _get_provider_for_model cfg' m (run ms req model st).2
            = (p, (run ms req model st).2)).
Proof.
  intros Hnew.
  destruct (chat_with_state ms model st) as (Ht & _ & Hp & _).
  destruct (chat_loop_effects provider_chat cfg req
              (models_to_try ms model) 0 (models_to_try ms model) [] st)
    as (n & new' & _ & _ & _ & Htr & Hdom & Hpre & _).
  rewrite Ht, Htr in Hnew. apply app_inv_head in Hnew as <-.
  rewrite Hp. split; [exact Hdom |]. split; [exact Hpre |].
  intros m cfg' Hm.
  assert (Hin : m ∈ dom (_providers (run ms req model st).2)).
  { rewrite Hp, Hdom. set_solver. }
  apply elem_of_dom in Hin as [p Hpm]. exists p.
  by apply get_provider_hit.
Qed.

(** X7: Every failure record is logged as a warning when it is made, so the
    warnings a call adds to the log are its failure records, in order. *)
Theorem chat_warns_of_every_failure ms model st :
  warned (log (run ms req model st).2)
  = warned (log st) ++ run_errors ms req model st.
Proof.
  destruct (chat_with_state ms model st) as (_ & Hw & _).
  destruct (chat_loop_effects provider_chat cfg req
              (models_to_try ms model) 0 (models_to_try ms model) [] st)
    as (n & new & _ & _ & _ & _ & _ & _ & Herr & Hwarn).
  rewrite Hw, Hwarn. unfold chat_errors. by rewrite Herr.
Qed.

(** X8: The response of [chat] has the finish-reason "error" exactly when
    every candidate failed; otherwise it is the response the backend
    returned for the first candidate that did not fail, and that response is
    no soft failure. *)
Theorem error_finish_reason_iff_all_failed ms model st :
  let mtt := models_to_try ms model in
  (finish_reason (run ms req model st).1 = "error" ↔ failing2 mtt 0 mtt st)
  ∧ (failing2 mtt 0 mtt st
     ∨ ∃ pre c post,
         mtt = pre ++ c :: post
         ∧ failing2 mtt 0 pre st
         ∧ (call2 c (after2 mtt 0 pre st)).1 = Returned (run ms req model st).1
         ∧ ¬ soft_failure (Returned (run ms req model st).1)).
Proof.
  intros mtt.
  assert (Hok : ∀ r, indicates_error r = false → ¬ soft_failure (Returned r)).
  { intros r Hi (r' & [= <-] & Hs%indicates_error_iff). congruence. }
  destruct (chat_loop_cases provider_chat cfg req mtt 0 mtt [] st)
    as [[Hf He] | (pre & c & post & r & Hm & Hf & Hc & Hi & Hr)].
  - split; [| by left]. split; [done |]. intros _.
    unfold chat_with. fold mtt. by rewrite He.
  - assert (Hresp : (run ms req model st).1 = r).
    { unfold chat_with. fold mtt.
      destruct (chat_loop provider_chat cfg req mtt 0 mtt [] st)
        as [[[r'|] errs] st']; simpl in Hr; [| done].
      simpl. congruence. }
    rewrite Hresp. split.
    + split.
      * intros Hfr. exfalso. apply (Hok r Hi). exists r. split; [done |].
        by left.
      * intros Hall. exfalso.
        pose proof (chat_loop_exhausted provider_chat cfg req mtt 0 mtt []
                      st Hall) as He.
        rewrite He in Hr. discriminate Hr.
    + right. exists pre, c, post. repeat split; try done. by apply Hok.
Qed.

(** X9: A success after at least one failure is logged as a fallback from
    the first candidate to the one that succeeded; a success of the first
    candidate is not. *)
Theorem fallback_success_is_logged ms model st pre c post r :
  models_to_try ms model = pre ++ c :: post →
  failing2 (models_to_try ms model) 0 pre st →
  (call2 c (after2 (models_to_try ms model) 0 pre st)).1 = Returned r →
  ¬ soft_failure (Returned r) →
  log (run ms req model st).2
  = log (after2 (models_to_try ms model) 0 pre st)
      ++ Debug_trying (length pre + 1) c
         :: match pre with
            | [] => []
            | first :: _ => [Info_fallback first c]
            end.
Proof.
  intros Hm Hf Hc Hs.
  destruct (chat_loop_first_success provider_chat cfg req _ pre c post st r
              Hf Hc Hs) as (Hl & _).
  rewrite <- Hm in Hl. unfold chat_with. rewrite Hl. simpl.
  assert (Hi : indicates_error r = false).
  { apply not_true_is_false. intros Hi%indicates_error_iff.
    apply Hs. by exists r. }
  destruct (call2 c (after2 (models_to_try ms model) 0 pre st))
    as [o w] eqn:E. simpl in Hc. subst o.
  rewrite (try_model_success_log provider_chat cfg req _ _ _ _ _ _ E Hi).
  do 2 f_equal. rewrite Hm. destruct pre as [|first pre]; simpl.
  - by rewrite andb_false_r.
  - rewrite length_app. simpl.
    rewrite bool_decide_eq_true_2; [done | lia].
Qed.

(** X10: When every candidate failed, the last thing [chat] logs is the
    error with the summary of the failure records, the same summary that the
    returned content carries. *)
Theorem exhaustion_is_logged ms model st :
  failing2 (models_to_try ms model) 0 (models_to_try ms model) st →
  let summary := error_summary (run_errors ms req model st) in
  log (run ms req model st).2
  = log (after2 (models_to_try ms model) 0 (models_to_try ms model) st)
      ++ [Error_all_failed summary]
  ∧ content (run ms req model st).1
    = Some ("Error: All models failed. " +:+ summary).
Proof.
  intros Hf. unfold chat_with, chat_errors.
  by rewrite (chat_loop_exhausted provider_chat cfg req _ _ _ [] _ Hf).
Qed.

(** X11: [chat] has no candidate only when the configured list is empty and
    no model is requested; it then calls no backend, leaves cache and world
    as they are, and returns the error response with an empty summary. *)
Theorem no_candidates_no_backend_call ms model st :
  (models_to_try ms model = [] ↔ ms = [] ∧ Py.truthy_opt model = false)
  ∧ (models_to_try ms model = [] →
     run ms req model st
     = (mkLLMResponse (Some "Error: All models failed. ") "error" [] [],
        logger (Error_all_failed "") st)).
Proof.
  split.
  - split.
    + destruct model as [[|a r]|]; simpl; try by intros ->.
      rewrite append_others_filter. discriminate.
    + intros [-> Hm]. by apply models_to_try_falsy.
  - intros E. unfold chat_with. by rewrite E.
Qed.

(** X12: After [__init__] the list of models is never empty, and
    [get_default_model] is the model that [chat], given no model, tries
    first: the first configured model, or [default_model] when none was
    configured. *)
Theorem default_model_is_tried_first (configured : option nat) (d : string)
    (h : gmap nat (list string)) model st :
  Py.truthy_opt model = false →
  let self := (__init__ cfg configured d h).1 in
  let h' := (__init__ cfg configured d h).2 in
  deref h' (models self) ≠ []
  ∧ get_default_model self h'
    = match from_option (deref h) [] configured with
      | m :: _ => m
      | [] => d
      end
  ∧ ∃ rest, tried (log (chat provider_chat self h' req model st).2)
            = tried (log st) ++ get_default_model self h' :: rest.
Proof.
  intros Hmodel self h'.
  assert (Hi : ∃ m0 t0, deref h' (models self) = m0 :: t0
             ∧ config self = cfg
             ∧ m0 = match from_option (deref h) [] configured with
                    | m :: _ => m
                    | [] => d
                    end).
  { subst self h'. unfold __init__.
    assert (Hfresh : deref (<[fresh (dom h) := [d]]> h) (fresh (dom h)) = [d]).
    { unfold deref. by rewrite lookup_insert_eq. }
    destruct configured as [l|]; simpl.
    - destruct (deref h l) as [|m t] eqn:E; simpl; eauto.
    - eauto. }
  destruct Hi as (m0 & t0 & Hd & Hc & Hm0).
  unfold get_default_model, chat. rewrite Hd, Hc, <- Hm0.
  split; [done |]. split; [done |].
  destruct (chat_with_state (m0 :: t0) model st) as (Ht & _).
  destruct (chat_loop_effects provider_chat cfg req
              (models_to_try (m0 :: t0) model) 0
              (models_to_try (m0 :: t0) model) [] st)
    as (n & new & _ & H1 & _ & Htr & _).
  rewrite Ht, Htr, (models_to_try_falsy _ _ Hmodel).
  rewrite (models_to_try_falsy _ _ Hmodel) in H1.
  destruct n as [|n]; [specialize (H1 ltac:(done)); lia |].
  by exists (take n t0).
Qed.

End Outcome.

(** ** More on the provider cache *)

Section CacheInvariant.

Context {World Request : Type}.
Variable provider_chat :
  LLMProvider → Request → string → World → outcome * World.

Implicit Types (st : State World) (cfg : Config) (m k : string).

Lemma cache_wf_initial (w : World) : cache_wf (initial_state w).
Proof.
  split; [| split]; simpl.
  - intros k p. by rewrite lookup_empty.
  - intros k1 k2 p1 p2. by rewrite lookup_empty.
  - apply map_size_empty.
Qed.

Lemma cache_wf_get cfg m st :
  cache_wf st → cache_wf (_get_provider_for_model cfg m st).2.
Proof.
  intros (Hb & Hi & Hs). destruct (_providers st !! m) as [q|] eqn:E.
  - by rewrite (get_provider_hit _ _ _ _ E).
  - rewrite (get_provider_miss _ _ _ E). split; [| split]; simpl.
    + intros k p. rewrite lookup_insert.
      destruct (decide (m = k)) as [<-|Hne].
      * intros [= <-]. simpl. split; [apply new_provider_bound | lia].
      * intros Hk. destruct (Hb _ _ Hk). split; [done | lia].
    + intros k1 k2 p1 p2. rewrite !lookup_insert.
      destruct (decide (m = k1)) as [<-|H1], (decide (m = k2)) as [<-|H2];
        try done.
      * intros [= <-] Hk Hid. simpl in Hid.
        destruct (Hb _ _ Hk) as [_ Hlt]. lia.
      * intros Hk [= <-] Hid. simpl in Hid.
        destruct (Hb _ _ Hk) as [_ Hlt]. lia.
      * apply Hi.
    + rewrite map_size_insert_None; [| done]. by rewrite Hs.
Qed.

Lemma cache_wf_resolve_all (calls : list (Config * string)) st :
  cache_wf st → cache_wf (resolve_all calls st).
Proof.
  revert st. induction calls as [|[cfg m] calls IH]; intros st H; [done |].
  apply IH. by apply cache_wf_get.
Qed.

Lemma get_provider_dom cfg m st :
  dom (_providers (_get_provider_for_model cfg m st).2)
  = dom (_providers st) ∪ {[m]}.
Proof.
  destruct (_providers st !! m) as [p|] eqn:E.
  - rewrite (get_provider_hit _ _ _ _ E).
    assert (m ∈ dom (_providers st)) by (apply elem_of_dom; eauto).
    set_solver.
  - rewrite (get_provider_miss _ _ _ E). simpl. rewrite dom_insert_L.
    set_solver.
Qed.

Lemma resolve_all_dom (calls : list (Config * string)) st :
  dom (_providers (resolve_all calls st))
  = dom (_providers st) ∪ list_to_set (calls.*2).
Proof.
  revert st. induction calls as [|[cfg m] calls IH]; intros st; simpl.
  - set_solver.
  - unfold resolve_all in *. simpl. rewrite IH, get_provider_dom.
    set_solver.
Qed.

Lemma cache_wf_loop cfg (req : Request) mtt idx (ms : list string) errs st :
  cache_wf st →
  cache_wf (chat_loop provider_chat cfg req mtt idx ms errs st).2.
Proof.
  revert idx errs st. induction ms as [|m ms IH]; intros idx errs st H;
    [done |].
  simpl.
  assert (H' : cache_wf (try_model provider_chat cfg req mtt idx m st).2).
  { destruct (try_model_cache provider_chat cfg req mtt idx m st) as [Hp Hn].
    pose proof (cache_wf_get cfg m st H) as H'.
    unfold cache_wf in *. by rewrite Hp, Hn. }
  destruct (try_model provider_chat cfg req mtt idx m st) as [[r|rec] st'];
    [done |].
  by apply IH.
Qed.

(** X13: Resolution and [chat] keep the cache well formed: every cached
    client stays bound to its key as its default model whatever the
    configuration becomes, distinct models have distinct client objects, and
    no client is constructed twice for a model or constructed and not
    cached. *)
Theorem cache_stays_well_formed cfg (req : Request) m (ms : list string)
    (model : option string) st :
  cache_wf st →
  cache_wf (_get_provider_for_model cfg m st).2
  ∧ cache_wf (chat_with provider_chat cfg ms req model st).2
  ∧ bound_model (impl (_get_provider_for_model cfg m st).1) = m.
Proof.
  intros H. split; [by apply cache_wf_get |]. split.
  - unfold chat_with.
    pose proof (cache_wf_loop cfg req (models_to_try ms model) 0
                  (models_to_try ms model) [] st H) as H'.
    destruct (chat_loop provider_chat cfg req (models_to_try ms model) 0
                (models_to_try ms model) [] st) as [[[r|] errs] st'];
      [done |].
    exact H'.
  - pose proof (get_provider_cached cfg m st) as Hc.
    destruct (cache_wf_get cfg m st H) as (Hb & _).
    by destruct (Hb _ _ Hc).
Qed.

(** X14: Starting from the empty cache, the number of clients constructed is
    the number of distinct models resolved, however often each is resolved
    and under whatever configurations. *)
Theorem one_client_per_distinct_model (calls : list (Config * string))
    (w : World) :
  next_obj (resolve_all calls (initial_state w))
  = size (list_to_set (calls.*2) : gset string)
  ∧ dom (_providers (resolve_all calls (initial_state w)))
    = list_to_set (calls.*2).
Proof.
  destruct (cache_wf_resolve_all calls _ (cache_wf_initial w)) as (_ & _ & Hs).
  pose proof (resolve_all_dom calls (initial_state w)) as Hd.
  simpl in Hd. rewrite dom_empty_L, (left_id_L ∅ (∪)) in Hd.
  split; [| exact Hd].
  by rewrite <- Hs, <- Hd, size_dom.
Qed.

End CacheInvariant.

(** ** The size of the error summary *)

Lemma length_append (a b : string) :
  String.length (a +:+ b) = String.length a + String.length b.
Proof.
  induction a as [|x a IH]; [done |].
  rewrite append_cons. simpl. by rewrite IH.
Qed.

Lemma length_slice_to (n : nat) (s : string) :
  String.length (Py.slice_to n s) = n `min` String.length s.
Proof.
  revert s. induction n as [|n IH]; intros [|c s]; simpl; try done.
  by rewrite IH.
Qed.

Lemma length_error_entry (m e : string) :
  String.length (error_entry (m, e))
  = String.length m + 2 + (if decide (50 < String.length e) then 53
                           else String.length e).
Proof.
  unfold error_entry, Py.len.
  destruct (decide (50 < String.length e)) as [H|H].
  - rewrite (bool_decide_eq_true_2 _ H).
    rewrite !length_append, length_slice_to.
    change (String.length ": ") with 2. change (String.length "...") with 3.
    lia.
  - rewrite (bool_decide_eq_false_2 _ H).
    rewrite !length_append. change (String.length ": ") with 2. lia.
Qed.

(** X15: However long the failure messages are, an entry of the summary
    shows at most 53 characters after the model and ": ", so the summary is
    no longer than the names of the failed models plus 57 characters for
    each of them. *)
Theorem error_summary_is_bounded (errors : list (string * string)) :
  (∀ m e, (m, e) ∈ errors →
     String.length (error_entry (m, e)) ≤ String.length m + 55)
  ∧ String.length (error_summary errors)
    ≤ sum_list ((λ rec, String.length rec.1 + 57) <$> errors).
Proof.
  assert (Hentry : ∀ m e,
            String.length (error_entry (m, e)) ≤ String.length m + 55).
  { intros m e. rewrite length_error_entry. case_decide; lia. }
  split; [intros m e _; apply Hentry |].
  unfold error_summary.
  induction errors as [|[m e] errors IH]; [done |].
  destruct errors as [|rec errors].
  - pose proof (Hentry m e) as H. cbn [fmap list_fmap Py.join sum_list fst].
    unfold id. lia.
  - rewrite !fmap_cons, join_cons2. rewrite !fmap_cons in IH.
    rewrite !length_append. change (String.length "; ") with 2.
    pose proof (Hentry m e) as H. cbn [sum_list fst] in *. unfold id in *.
    lia.
Qed.

(** ** Instances of the further properties *)

Lemma chat_caches_the_models_it_tries_witness :
  tried (log (chat_with scripted_chat no_config ["a/x"; "b/y"] tt
                        (Some "b/y") (initial_state 0)).2)
  = tried (log (initial_state 0)) ++ ["b/y"; "a/x"]
  ∧ dom (_providers (chat_with scripted_chat no_config ["a/x"; "b/y"] tt
                               (Some "b/y") (initial_state 0)).2)
    = dom (_providers (initial_state 0)) ∪ list_to_set ["b/y"; "a/x"].
Proof.
  assert (Ht : tried (log (chat_with scripted_chat no_config ["a/x"; "b/y"] tt
                                     (Some "b/y") (initial_state 0)).2)
               = tried (log (initial_state 0)) ++ ["b/y"; "a/x"])
    by (vm_compute; reflexivity).
  split; [exact Ht |].
  exact (proj1 (chat_caches_the_models_it_tries scripted_chat no_config tt
                  ["a/x"; "b/y"] (Some "b/y") (initial_state 0) _ Ht)).
Defined.

Lemma fallback_success_is_logged_witness :
  log (chat_with scripted_chat no_config ["a/x"; "b/y"] tt (Some "b/y")
                 (initial_state 0)).2
  = log (state_after scripted_chat no_config tt
           (models_to_try ["a/x"; "b/y"] (Some "b/y")) 0 ["b/y"]
           (initial_state 0))
      ++ [Debug_trying 2 "a/x"; Info_fallback "b/y" "a/x"].
Proof.
  assert (Hm : models_to_try ["a/x"; "b/y"] (Some "b/y")
               = ["b/y"] ++ "a/x" :: []) by reflexivity.
  assert (Hf : all_fail scripted_chat no_config tt
                 (models_to_try ["a/x"; "b/y"] (Some "b/y")) 0 ["b/y"]
                 (initial_state 0)).
  { split; [| exact I]. left. by exists "transport error". }
  assert (Hc : (backend_call scripted_chat no_config tt "a/x"
                  (state_after scripted_chat no_config tt
                     (models_to_try ["a/x"; "b/y"] (Some "b/y")) 0 ["b/y"]
                     (initial_state 0))).1
               = Returned (mkLLMResponse (Some "hi") "stop" [] []))
    by (vm_compute; reflexivity).
  assert (Hs : ¬ soft_failure (Returned (mkLLMResponse (Some "hi") "stop" [] []))).
  { intros (r & [= <-] & [H | [tail H]]); discriminate H. }
  exact (fallback_success_is_logged scripted_chat no_config tt
           ["a/x"; "b/y"] (Some "b/y") (initial_state 0)
           ["b/y"] "a/x" [] _ Hm Hf Hc Hs).
Defined.

Lemma exhaustion_is_logged_witness :
  all_fail scripted_chat no_config tt ["d/z"] 0 ["d/z"] (initial_state 0)
  ∧ last (log (chat_with scripted_chat no_config ["d/z"] tt None
                         (initial_state 0)).2)
    = Some (Error_all_failed "d/z: Error calling LLM: timeout").
Proof.
  assert (Hf : all_fail scripted_chat no_config tt
                 (models_to_try ["d/z"] None) 0 (models_to_try ["d/z"] None)
                 (initial_state 0)).
  { split; [| exact I].
    right. eexists. split; [reflexivity |]. right. by exists " timeout". }
  split; [exact Hf |].
  destruct (exhaustion_is_logged scripted_chat no_config tt ["d/z"] None
              (initial_state 0) Hf) as [Hl _].
  rewrite Hl, last_snoc. vm_compute. reflexivity.
Defined.

Lemma default_model_is_tried_first_witness :
  Py.truthy_opt (Some "") = false
  ∧ get_default_model
      (__init__ no_config (Some 0) "d/z" {[0 := ["a/x"; "b/y"]]}).1
      (__init__ no_config (Some 0) "d/z" {[0 := ["a/x"; "b/y"]]}).2
    = "a/x".
Proof.
  split; [reflexivity |].
  destruct (default_model_is_tried_first scripted_chat no_config tt (Some 0)
              "d/z" {[0 := ["a/x"; "b/y"]]} (Some "") (initial_state 0)
              eq_refl) as (_ & H & _).
  rewrite H. unfold deref. simpl. by rewrite lookup_singleton_eq.
Defined.

Lemma cache_stays_well_formed_witness :
  cache_wf (initial_state 0)
  ∧ cache_wf (chat_with scripted_chat no_config ["a/x"; "b/y"] tt
                        (Some "b/y") (initial_state 0)).2.
Proof.
  assert (H : cache_wf (initial_state 0)) by apply cache_wf_initial.
  split; [exact H |].
  exact (proj1 (proj2 (cache_stays_well_formed scripted_chat no_config tt
                         "a/x" ["a/x"; "b/y"] (Some "b/y")
                         (initial_state 0) H))).
Defined.

(** * Properties of the integration checks *)

(** ** Searching and slicing texts *)

Lemma find_from_sound (sub s : string) (i j : nat) :
  PyText.find_from sub s i = Some j →
  ∃ a b, s = a +:+ sub +:+ b ∧ j = i + String.length a.
Proof.
  revert i. induction s as [|c s IH]; intros i; simpl.
  - destruct (Py.startswith "" sub) eqn:E; [| done].
    intros [= <-]. apply startswith_inv in E as [b ->].
    exists "", b. split; [done | simpl; lia].
  - destruct (Py.startswith (String c s) sub) eqn:E.
    + intros [= <-]. apply startswith_inv in E as [b E].
      exists "", b. split; [done | simpl; lia].
    + intros (a & b & -> & ->)%IH.
      exists (String c a), b. split; [done | simpl; lia].
Qed.

Lemma find_from_complete (sub a b : string) (i : nat) :
  is_Some (PyText.find_from sub (a +:+ sub +:+ b) i).
Proof.
  revert i. induction a as [|c a IH]; intros i.
  - change ("" +:+ sub +:+ b) with (sub +:+ b).
    destruct (sub +:+ b) eqn:E; simpl; rewrite <- E, startswith_append; eauto.
  - rewrite append_cons. simpl.
    destruct (Py.startswith _ sub); [eauto | apply IH].
Qed.

Lemma contains_iff (sub s : string) :
  PyText.contains sub s = true ↔ ∃ a b, s = a +:+ sub +:+ b.
Proof.
  unfold PyText.contains. split.
  - destruct (PyText.find_from sub s 0) as [j|] eqn:E; [| done].
    intros _. apply find_from_sound in E as (a & b & -> & _). eauto.
  - intros (a & b & ->).
    by destruct (find_from_complete sub a b 0) as [j ->].
Qed.

Lemma contains_part (pre n suf s : string) :
  PyText.contains (pre +:+ n +:+ suf) s = true → PyText.contains n s = true.
Proof.
  rewrite !contains_iff. intros (a & b & ->).
  exists (a +:+ pre), (suf +:+ b). by rewrite !append_assoc.
Qed.

Lemma contains_trans (x y z : string) :
  PyText.contains x y = true → PyText.contains y z = true →
  PyText.contains x z = true.
Proof.
  rewrite !contains_iff. intros (a & b & ->) (c & d & ->).
  exists (c +:+ a), (b +:+ d). by rewrite !append_assoc.
Qed.

Lemma append_nil_r (s : string) : s +:+ "" = s.
Proof. induction s as [|c s IH]; [done |]. by rewrite append_cons, IH. Qed.

Lemma drop_split (n : nat) (s : string) : ∃ x, s = x +:+ PyText.drop n s.
Proof.
  revert s. induction n as [|n IH]; intros s; simpl; [by exists "" |].
  destruct s as [|c s]; [by exists "" |].
  destruct (IH s) as [x Hx]. exists (String c x).
  by rewrite append_cons, <- Hx.
Qed.

Lemma slice_to_prefix (n : nat) (s : string) : ∃ r, s = Py.slice_to n s +:+ r.
Proof.
  destruct (decide (n ≤ String.length s)) as [H|H].
  - by destruct (slice_to_split n s H) as [_ ?].
  - exists "". rewrite slice_to_all by lia. by rewrite append_nil_r.
Qed.

Lemma contains_slice (s : string) (a b : Z) :
  PyText.contains (PyText.slice s a b) s = true.
Proof.
  apply contains_iff. unfold PyText.slice.
  set (lo := PyText.bound _ a). set (hi := PyText.bound _ b).
  destruct (drop_split lo s) as [x Hx].
  destruct (slice_to_prefix (hi - lo) (PyText.drop lo s)) as [r Hr].
  exists x, r. by rewrite <- Hr.
Qed.

Lemma contains_drop (sub s : string) (n : nat) :
  PyText.contains sub (PyText.drop n s) = true → PyText.contains sub s = true.
Proof.
  intros H. apply (contains_trans _ _ _ H), contains_iff.
  destruct (drop_split n s) as [x Hx]. exists x, "". by rewrite append_nil_r.
Qed.

Lemma contains_empty (sub : string) :
  sub ≠ "" → PyText.contains sub "" = false.
Proof. by destruct sub. Qed.

(** ** What the checks accept *)

(** X16: The class check holds exactly of an existing file whose text
    contains "class " followed by the name, wherever that is and whatever
    follows: a class whose name only begins with [class_name] passes it, and
    so does the same text in a comment. *)
Theorem class_check_accepts_longer_names (fs : gmap string string)
    (filepath class_name : string) :
  (check_class_in_file fs filepath class_name = true ↔
   ∃ content a b, fs !! filepath = Some content
     ∧ content = a +:+ "class " +:+ class_name +:+ b)
  ∧ (∀ suffix,
       check_class_in_file fs filepath (class_name +:+ suffix) = true →
       check_class_in_file fs filepath class_name = true).
Proof.
  unfold check_class_in_file. split.
  - destruct (fs !! filepath) as [content|].
    + rewrite contains_iff. split.
      * intros (a & b & E). exists content, a, b. split; [done |].
        by rewrite E, !append_assoc.
      * intros (? & a & b & [= <-] & ->). exists a, b.
        by rewrite !append_assoc.
    + split; [done |]. by intros (? & ? & ? & ? & _).
  - intros suffix. destruct (fs !! filepath) as [content|]; [| done].
    rewrite !contains_iff. intros (a & b & ->).
    exists a, (suffix +:+ b). by rewrite !append_assoc.
Qed.

(** X17: The import check is the weakest of the four: whenever the class,
    the function or the export check passes for a name, the file exists and
    the import check passes for that name too; and for a file that does not
    exist every one of the four checks fails. *)
Theorem import_check_is_weakest (fs : gmap string string)
    (filepath name : string) :
  (check_class_in_file fs filepath name = true
   ∨ check_function_in_file fs filepath name = true
   ∨ check_export_in_file fs filepath name = true →
   is_Some (fs !! filepath) ∧ check_import_in_file fs filepath name = true)
  ∧ (fs !! filepath = None →
     check_class_in_file fs filepath name = false
     ∧ check_import_in_file fs filepath name = false
     ∧ check_function_in_file fs filepath name = false
     ∧ check_export_in_file fs filepath name = false).
Proof.
  unfold check_class_in_file, check_function_in_file, check_export_in_file,
    check_import_in_file.
  split; [| by intros ->].
  destruct (fs !! filepath) as [content|]; [| by intros [? | [? | ?]]].
  intros H. split; [eauto |].
  destruct H as [H | [H | H]].
  - apply (contains_part "class " name ""). by rewrite append_nil_r.
  - apply (contains_part "def " name ""). by rewrite append_nil_r.
  - destruct (PyText.contains "__all__" content); [| done].
    apply orb_true_iff in H as [H | H];
      apply contains_part in H;
      exact (contains_trans _ _ _ H (contains_slice _ _ _)).
Qed.

(** X18: Without a "]" in the file the export check fails, however the name
    is quoted there: the text searched ends at the first "]" after
    "__all__", and is empty when there is none. *)
Theorem export_check_needs_closing_bracket (fs : gmap string string)
    (filepath export_name content : string) :
  fs !! filepath = Some content →
  PyText.contains "]" content = false →
  check_export_in_file fs filepath export_name = false.
Proof.
  intros Hf Hb. unfold check_export_in_file. rewrite Hf.
  destruct (PyText.contains "__all__" content) eqn:Ha; [| done].
  set (start := PyText.find content "__all__" 0).
  assert (Hend : PyText.find content "]" start = (-1)%Z).
  { unfold PyText.find. case_decide; [done |].
    destruct (PyText.find_from "]" _ _) as [j|] eqn:E; [| done].
    exfalso. apply find_from_sound in E as (a & b & E & _).
    assert (PyText.contains "]" content = true); [| congruence].
    eapply contains_drop. rewrite E. apply contains_iff. eauto. }
  rewrite Hend. change (-1 + 1)%Z with 0%Z.
  assert (Hs : PyText.slice content start 0 = "").
  { unfold PyText.slice.
    replace (PyText.bound (String.length content) 0) with 0
      by (unfold PyText.bound; case_decide; lia).
    done. }
  rewrite Hs, !contains_empty; [done | done |].
  unfold PyText.dquote. by rewrite append_cons.
Qed.

(** ** Where the export check looks *)

Lemma find_from_le (sub a b : string) (i : nat) :
  ∃ j, PyText.find_from sub (a +:+ sub +:+ b) i = Some j
       ∧ j ≤ i + String.length a.
Proof.
  revert i. induction a as [|c a IH]; intros i.
  - change ("" +:+ sub +:+ b) with (sub +:+ b). exists i.
    split; [| simpl; lia].
    destruct (sub +:+ b) eqn:E; simpl; by rewrite <- E, startswith_append.
  - rewrite append_cons. simpl.
    destruct (Py.startswith _ sub).
    + exists i. split; [done | lia].
    + destruct (IH (S i)) as (j & -> & Hj). exists j. split; [done | lia].
Qed.

Lemma drop_app_le (n : nat) (a b : string) :
  n ≤ String.length a → PyText.drop n (a +:+ b) = PyText.drop n a +:+ b.
Proof.
  revert a. induction n as [|n IH]; intros a H; [done |].
  destruct a as [|c a]; [simpl in H; lia |].
  rewrite append_cons. simpl in *. apply IH. lia.
Qed.

Lemma length_drop (n : nat) (s : string) :
  String.length (PyText.drop n s) = String.length s - n.
Proof.
  revert s. induction n as [|n IH]; intros s; simpl; [lia |].
  destruct s as [|c s]; simpl; [done | apply IH].
Qed.

Lemma slice_to_drop (lo hi : nat) (s : string) :
  ∃ u, Py.slice_to hi s = u +:+ Py.slice_to (hi - lo) (PyText.drop lo s).
Proof.
  revert hi s. induction lo as [|lo IH]; intros hi s.
  - exists "". by rewrite Nat.sub_0_r.
  - destruct hi as [|hi]; [by exists "" |].
    destruct s as [|c s]; [exists ""; simpl; by destruct (hi - lo) |].
    destruct (IH hi s) as [u Hu]. exists (String c u).
    simpl. by rewrite Hu, append_cons.
Qed.

Lemma slice_to_slice_to (m n : nat) (s : string) :
  m ≤ n → Py.slice_to m (Py.slice_to n s) = Py.slice_to m s.
Proof.
  revert n s. induction m as [|m IH]; intros n s H; [done |].
  destruct n as [|n]; [lia |]. destruct s as [|c s]; [done |].
  simpl. f_equal. apply IH. lia.
Qed.

Lemma slice_to_app (a b : string) : Py.slice_to (String.length a) (a +:+ b) = a.
Proof.
  induction a as [|c a IH]; [done |].
  rewrite append_cons. simpl. by rewrite IH.
Qed.

(** A part of the text that ends at or before position [n] lies in the
    first [n] characters. *)
Lemma contains_slice_upto (x s : string) (a b : Z) (n : nat) :
  PyText.bound (String.length s) b ≤ n →
  PyText.contains x (PyText.slice s a b) = true →
  PyText.contains x (Py.slice_to n s) = true.
Proof.
  intros Hb Hx. apply (contains_trans _ _ _ Hx), contains_iff.
  unfold PyText.slice.
  set (lo := PyText.bound _ a). set (hi := PyText.bound _ b) in *.
  destruct (slice_to_drop lo hi s) as [u Hu].
  destruct (slice_to_prefix hi (Py.slice_to n s)) as [r Hr].
  rewrite (slice_to_slice_to _ _ _ Hb), Hu in Hr.
  exists u, r. by rewrite Hr, !append_assoc.
Qed.

(** X19: The export check reads no further than the first "]" after
    "__all__": a name that is quoted only behind that bracket is not found,
    for instance in a list that is put together from two. *)
Theorem export_check_stops_at_first_bracket (fs : gmap string string)
    (filepath export_name pre post : string) :
  fs !! filepath = Some (pre +:+ "]" +:+ post) →
  PyText.contains "__all__" pre = true →
  PyText.contains (PyText.dquote +:+ export_name +:+ PyText.dquote)
                  (pre +:+ "]") = false →
  PyText.contains ("'" +:+ export_name +:+ "'") (pre +:+ "]") = false →
  check_export_in_file fs filepath export_name = false.
Proof.
  intros Hf Hall Hd Hs. unfold check_export_in_file. rewrite Hf.
  set (content := pre +:+ "]" +:+ post).
  destruct (PyText.contains "__all__" content); [| done].
  apply contains_iff in Hall as (a0 & b0 & Hpre).
  (* the first "__all__" starts within [pre] *)
  destruct (find_from_le "__all__" a0 (b0 +:+ "]" +:+ post) 0)
    as (j0 & Hj0 & Hle0).
  assert (Hc : content = a0 +:+ "__all__" +:+ b0 +:+ "]" +:+ post).
  { unfold content. by rewrite Hpre, !append_assoc. }
  rewrite <- Hc in Hj0.
  assert (Hlen : String.length content
                 = String.length pre + 1 + String.length post).
  { unfold content. rewrite !length_append. simpl. lia. }
  assert (Hj0pre : j0 ≤ String.length pre).
  { rewrite Hpre, !length_append. simpl in *. lia. }
  assert (Hb0 : PyText.bound (String.length content) 0 = 0)
    by (unfold PyText.bound; case_decide; lia).
  assert (Hstart : PyText.find content "__all__" 0 = Z.of_nat j0).
  { unfold PyText.find. case_decide; [lia |]. rewrite Hb0. simpl PyText.drop.
    by rewrite Hj0. }
  rewrite Hstart.
  (* the first "]" from there on is no later than the end of [pre] *)
  assert (Hbj : PyText.bound (String.length content) (Z.of_nat j0) = j0)
    by (unfold PyText.bound; case_decide; lia).
  destruct (find_from_le "]" (PyText.drop j0 pre) post j0) as (j & Hj & Hle).
  rewrite length_drop in Hle.
  change (PyText.drop j0 pre +:+ "]" +:+ post)
    with (PyText.drop j0 pre +:+ ("]" +:+ post)) in Hj.
  rewrite <- (drop_app_le _ _ _ Hj0pre) in Hj.
  assert (Hend : PyText.find content "]" (Z.of_nat j0) = Z.of_nat j).
  { unfold PyText.find. case_decide; [lia |]. rewrite Hbj.
    fold content in Hj. by rewrite Hj. }
  rewrite Hend.
  assert (Hhi : PyText.bound (String.length content) (Z.of_nat j + 1)
                ≤ String.length (pre +:+ "]")).
  { rewrite length_append. simpl. unfold PyText.bound. case_decide; lia. }
  assert (Hcut : Py.slice_to (String.length (pre +:+ "]")) content
                 = pre +:+ "]").
  { unfold content. rewrite <- append_assoc. apply slice_to_app. }
  apply orb_false_iff. split; apply not_true_is_false; intros Hx;
    apply (contains_slice_upto _ _ _ _ _ Hhi) in Hx;
    rewrite Hcut in Hx; congruence.
Qed.

Example export_behind_first_bracket :
  let fs : gmap string string :=
    {[ "nanobot/providers/__init__.py"
       := "__all__ = ['LLMProvider'] + ['MultiModelProvider']" ]} in
  check_export_in_file fs "nanobot/providers/__init__.py" "LLMProvider" = true
  ∧ check_export_in_file fs "nanobot/providers/__init__.py"
                         "MultiModelProvider" = false
  ∧ check_import_in_file fs "nanobot/providers/__init__.py"
                         "MultiModelProvider" = true
  ∧ check_class_in_file fs "nanobot/providers/missing.py" "X" = false.
Proof. vm_compute. done. Qed.

Lemma import_check_is_weakest_witness :
  (check_function_in_file
     {[ "nanobot/cli/commands.py" := "def MultiModelProvider(config):" ]}
     "nanobot/cli/commands.py" "MultiModelProvider" = true
   ∧ ({[ "nanobot/cli/commands.py" := "def MultiModelProvider(config):" ]}
        : gmap string string) !! "nanobot/cli/missing.py" = None)
  ∧ check_import_in_file
      {[ "nanobot/cli/commands.py" := "def MultiModelProvider(config):" ]}
      "nanobot/cli/commands.py" "MultiModelProvider" = true
  ∧ check_import_in_file
      {[ "nanobot/cli/commands.py" := "def MultiModelProvider(config):" ]}
      "nanobot/cli/missing.py" "MultiModelProvider" = false.
Proof.
  assert (H : check_function_in_file
                {[ "nanobot/cli/commands.py"
                   := "def MultiModelProvider(config):" ]}
                "nanobot/cli/commands.py" "MultiModelProvider" = true)
    by (vm_compute; reflexivity).
  assert (Hn : ({[ "nanobot/cli/commands.py"
                   := "def MultiModelProvider(config):" ]}
                  : gmap string string) !! "nanobot/cli/missing.py" = None)
    by (vm_compute; reflexivity).
  split; [by split |]. split.
  - exact (proj2 (proj1 (import_check_is_weakest _ _ _)
                    (or_intror (or_introl H)))).
  - exact (proj1 (proj2 (proj2 (import_check_is_weakest _ _
                                  "MultiModelProvider") Hn))).
Defined.

Lemma export_check_needs_closing_bracket_witness :
  (({[ "nanobot/providers/__init__.py" := "__all__ = ('MultiModelProvider',)" ]}
      : gmap string string) !! "nanobot/providers/__init__.py"
   = Some "__all__ = ('MultiModelProvider',)"
   ∧ PyText.contains "]" "__all__ = ('MultiModelProvider',)" = false)
  ∧ check_export_in_file
      {[ "nanobot/providers/__init__.py"
         := "__all__ = ('MultiModelProvider',)" ]}
      "nanobot/providers/__init__.py" "MultiModelProvider" = false.
Proof.
  assert (Hf : ({[ "nanobot/providers/__init__.py"
                   := "__all__ = ('MultiModelProvider',)" ]}
                  : gmap string string) !! "nanobot/providers/__init__.py"
               = Some "__all__ = ('MultiModelProvider',)")
    by apply lookup_singleton_eq.
  assert (Hb : PyText.contains "]" "__all__ = ('MultiModelProvider',)" = false)
    by reflexivity.
  split; [by split |].
  exact (export_check_needs_closing_bracket _ _ "MultiModelProvider" _ Hf Hb).
Defined.

Lemma export_check_stops_at_first_bracket_witness :
  PyText.contains "__all__" "__all__ = ['LLMProvider'" = true
  ∧ check_export_in_file
      {[ "nanobot/providers/__init__.py"
         := "__all__ = ['LLMProvider'" +:+ "]" +:+ " + ['MultiModelProvider']" ]}
      "nanobot/providers/__init__.py" "MultiModelProvider" = false.
Proof.
  assert (Ha : PyText.contains "__all__" "__all__ = ['LLMProvider'" = true)
    by reflexivity.
  split; [exact Ha |].
  apply (export_check_stops_at_first_bracket _ _ _ "__all__ = ['LLMProvider'"
           " + ['MultiModelProvider']").
  - apply lookup_singleton_eq.
  - exact Ha.
  - vm_compute. reflexivity.
  - vm_compute. reflexivity.
Defined.
